(** * CKD BOM comparison tool: a shallow embedding of the reconciliation core

    The development follows the Python sources module by module:

    - [modules/config.py]         status constants, box-marker patterns, the
                                  Chinese numeral table;
    - [modules/utils.py]          text cleaning, the quantity evaluator, the
                                  header locator, Chinese numerals, box labels;
    - [modules/file_reader.py]    the grid parsers (BOM, standard, stream);
    - [modules/data_processor.py] the reconciliation engine.

    Python values are modelled as the interpreter has them: a [str] is a
    sequence of Unicode code points, an [int] is an unbounded integer, a
    [float] is an IEEE 754 binary64 number (Rocq's primitive floats), a
    [dict] keeps insertion order where the code iterates over it, and an
    exception that the code does not catch is a [Raise] result. *)

From Stdlib Require Import ZArith NArith List Bool Lia String Ascii.
From Stdlib Require Import PrimFloat FloatOps SpecFloat Uint63.
From stdpp Require Import gmap list sorting lexico.

Set Warnings "-inexact-float".
Set Default Proof Using "Type".

(** ** Python strings *)

(** A Python [str]: the list of its code points. *)
Abbreviation str := (list N).

(** Source literals are written as UTF-8 text and decoded to code points. *)
Fixpoint utf8_decode (bs : list N) : str :=
  match bs with
  | [] => []
  | b0 :: r =>
    if (b0 <? 128)%N then b0 :: utf8_decode r
    else if (b0 <? 224)%N then
      match r with
      | b1 :: r1 => ((b0 - 192) * 64 + (b1 - 128))%N :: utf8_decode r1
      | _ => []
      end
    else if (b0 <? 240)%N then
      match r with
      | b1 :: b2 :: r2 =>
        ((b0 - 224) * 4096 + (b1 - 128) * 64 + (b2 - 128))%N :: utf8_decode r2
      | _ => []
      end
    else
      match r with
      | b1 :: b2 :: b3 :: r3 =>
        ((b0 - 240) * 262144 + (b1 - 128) * 4096 + (b2 - 128) * 64 + (b3 - 128))%N
          :: utf8_decode r3
      | _ => []
      end
  end.

Definition u (s : string) : str :=
  utf8_decode (map N_of_ascii (list_ascii_of_string s)).

(** [str.isspace] on one code point: the characters [str.strip()] removes
    and the regular-expression class [\s] matches. *)
Definition isspace (c : N) : bool :=
  ((9 <=? c) && (c <=? 13) || (28 <=? c) && (c <=? 32)
   || (c =? 133) || (c =? 160) || (c =? 5760)
   || (8192 <=? c) && (c <=? 8202)
   || (c =? 8232) || (c =? 8233) || (c =? 8239) || (c =? 8287)
   || (c =? 12288))%N.

Fixpoint lstrip_with (p : N -> bool) (s : str) : str :=
  match s with
  | c :: s' => if p c then lstrip_with p s' else s
  | [] => []
  end.

Definition rstrip_with (p : N -> bool) (s : str) : str :=
  rev (lstrip_with p (rev s)).

(** [s.strip()] *)
Definition strip (s : str) : str := rstrip_with isspace (lstrip_with isspace s).

(** [s.lstrip(ch)] for a one-character argument. *)
Definition lstrip_char (ch : N) (s : str) : str := lstrip_with (N.eqb ch) s.

(** [s.replace(ch, '')] for a one-character pattern. *)
Definition remove_char (ch : N) (s : str) : str :=
  filter (fun c => c <> ch) s.

Fixpoint startswith (p s : str) : bool :=
  match p, s with
  | [], _ => true
  | a :: p', b :: s' => (a =? b)%N && startswith p' s'
  | _ :: _, [] => false
  end.

Definition endswith (p s : str) : bool := startswith (rev p) (rev s).

(** [sub in s] on strings. *)
Fixpoint contains (sub s : str) : bool :=
  startswith sub s ||
  match s with
  | [] => false
  | _ :: s' => contains sub s'
  end.

(** [sep.join(parts)] *)
Fixpoint join (sep : str) (parts : list str) : str :=
  match parts with
  | [] => []
  | [p] => p
  | p :: rest => p ++ sep ++ join sep rest
  end.

(** ASCII case folding.  Every use of [str.lower()] that decides a
    membership in a tuple of ASCII tokens ([nan], [none], [null], ...) is
    modelled with it: no code point outside ASCII lower-cases to one of the
    letters of those tokens. *)
Definition ascii_lower_char (c : N) : N :=
  if ((65 <=? c) && (c <=? 90))%N then (c + 32)%N else c.

Definition ascii_lower (s : str) : str := map ascii_lower_char s.

Definition str_eqb (a b : str) : bool := bool_decide (a = b).

Definition str_in (s : str) (l : list str) : bool := bool_decide (s ∈ l).

(** [str(n)] for an [int]. *)
Fixpoint digits_of_pos_fuel (fuel : nat) (n : Z) (acc : str) : str :=
  match fuel with
  | O => acc
  | S k =>
    let acc' := Z.to_N (48 + n mod 10) :: acc in
    if (n <? 10)%Z then acc' else digits_of_pos_fuel k (n / 10)%Z acc'
  end.

Definition str_of_nonneg (n : Z) : str :=
  digits_of_pos_fuel (S (Z.to_nat (Z.log2 n))) n [].

Definition str_of_int (n : Z) : str :=
  if (n <? 0)%Z then 45%N :: str_of_nonneg (- n) else str_of_nonneg n.

(** ** Exceptions *)

(** The exceptions that can leave the functions modelled here. *)
Inductive exn := OverflowError | ValueError | IndexError.

(** The outcome of a call: a value, an exception that nothing catches, or
    [Unmodelled] when the run leaves the fragment of Python that this
    development models (see [py_eval]); nothing is stated about such
    runs. *)
Inductive result (A : Type) :=
| Ok (a : A)
| Raise (e : exn)
| Unmodelled.
Arguments Ok {A} a.
Arguments Raise {A} e.
Arguments Unmodelled {A}.

Global Instance result_ret : MRet result := fun A a => Ok a.

Global Instance result_bind : MBind result := fun A B k r =>
  match r with
  | Ok a => k a
  | Raise e => Raise e
  | Unmodelled => Unmodelled
  end.

Global Instance result_fmap : FMap result := fun A B f r =>
  match r with
  | Ok a => Ok (f a)
  | Raise e => Raise e
  | Unmodelled => Unmodelled
  end.

(** ** Python floats

    A [float] is a binary64 number.  The conversions below go through the
    exact value of a float, sign * mantissa * 2^exponent, read with
    [Prim2SF], so that they compute inside Rocq. *)

(** The binary64 number nearest to [num / den] (for [0 <= num], [0 < den]),
    ties to even, with the sign [neg]; an overflow gives an infinity. *)
Definition nearest_float (neg : bool) (num den : Z) : float :=
  if (num =? 0)%Z then SF2Prim (S754_zero neg)
  else
    let scale e := if (e <? 0)%Z then (num * 2 ^ (- e), den)%Z
                   else (num, den * 2 ^ e)%Z in
    let e0 := (Z.log2 num - Z.log2 den - 52)%Z in
    let m0 := (fst (scale e0) / snd (scale e0))%Z in
    let e1 := if (2 ^ 53 <=? m0)%Z then (e0 + 1)%Z
              else if (m0 <? 2 ^ 52)%Z then (e0 - 1)%Z else e0 in
    let e := Z.max e1 (-1074) in
    let n := fst (scale e) in
    let d := snd (scale e) in
    let q := (n / d)%Z in
    let r := (n mod d)%Z in
    let m := if ((d <? 2 * r) || (d =? 2 * r) && Z.odd q)%Z
             then (q + 1)%Z else q in
    if (m =? 0)%Z then SF2Prim (S754_zero neg)
    else if ((971 <? e) || (e =? 971) && (m =? 2 ^ 53))%Z
         then SF2Prim (S754_infinity neg)
         else SF2Prim (S754_finite neg (Z.to_pos m) e).

(** [float(n)] for an [int]: the nearest float, or [OverflowError]. *)
Definition float_of_int (n : Z) : result float :=
  let f := nearest_float (n <? 0)%Z (Z.abs n) 1 in
  if is_infinity f then Raise OverflowError else Ok f.

(** [int(x)] for a [float]: truncation; [ValueError] on NaN and
    [OverflowError] on an infinity. *)
Definition int_of_float (x : float) : result Z :=
  match Prim2SF x with
  | S754_nan => Raise ValueError
  | S754_infinity _ => Raise OverflowError
  | S754_zero _ => Ok 0%Z
  | S754_finite s m e =>
    let a := if (e <? 0)%Z then (Zpos m / 2 ^ (- e))%Z else (Zpos m * 2 ^ e)%Z in
    Ok (if s then (- a)%Z else a)
  end.

(** [x == n] between a [float] and an [int]: Python compares the exact
    values. *)
Definition float_eq_int (x : float) (n : Z) : bool :=
  match Prim2SF x with
  | S754_zero _ => (n =? 0)%Z
  | S754_finite s m e =>
    if (e <? 0)%Z then
      ((Zpos m mod 2 ^ (- e) =? 0) &&
       ((if s then - (Zpos m / 2 ^ (- e)) else Zpos m / 2 ^ (- e)) =? n))%Z
    else ((if s then - (Zpos m * 2 ^ e) else Zpos m * 2 ^ e) =? n)%Z
  | _ => false
  end.


Definition pad_left (width : nat) (s : str) : str :=
  repeat 48%N (width - length s) ++ s.

(** [f"{x:.{decimals}f}"]: the exact value rounded half-even to
    [decimals] places. *)
Definition format_fixed (decimals : nat) (x : float) : str :=
  let body (s : bool) (num den : Z) : str :=
    let scale := (10 ^ Z.of_nat decimals)%Z in
    let n := (num * scale)%Z in
    let q := (n / den)%Z in
    let r := (n mod den)%Z in
    let q := if ((den <? 2 * r) || (den =? 2 * r) && Z.odd q)%Z
             then (q + 1)%Z else q in
    (if s then [45%N] else []) ++ str_of_int (q / scale) ++
    match decimals with
    | O => []
    | _ => 46%N :: pad_left decimals (str_of_int (q mod scale))
    end in
  match Prim2SF x with
  | S754_nan => u "nan"
  | S754_infinity s => if s then u "-inf" else u "inf"
  | S754_zero s => body s 0%Z 1%Z
  | S754_finite s m e =>
    if (e <? 0)%Z then body s (Zpos m) (2 ^ (- e))%Z
    else body s (Zpos m * 2 ^ e)%Z 1%Z
  end.

(** The decimal position of a positive rational: the [k] with
    [10^(k-1) <= num/den < 10^k]. *)
Definition decimal_position (num den : Z) : Z :=
  let ge_pow k := if (k <? 0)%Z then (den <=? num * 10 ^ (- k))%Z
                  else (den * 10 ^ k <=? num)%Z in
  let k0 := ((Z.log2 num - Z.log2 den) * 30103 / 100000)%Z in
  let up k := if ge_pow k then (k + 1)%Z else k in
  let down k := if ge_pow (k - 1)%Z then k else (k - 1)%Z in
  down (down (down (up (up (up k0))))).

Fixpoint rstrip_zeros_count (digits_rev : str) : nat :=
  match digits_rev with
  | 48%N :: r => S (rstrip_zeros_count r)
  | _ => O
  end.

(** The shortest decimal digit string that reads back as [x] (the one
    nearest to [x] among the shortest), with its decimal position: the
    digits and exponent that [repr] prints.  [x] is [num/den > 0]. *)
Fixpoint shortest_digits (x : float) (num den k : Z) (ns : list Z)
  : str * Z :=
  match ns with
  | [] => ([], k)
  | n :: ns' =>
    let s := (n - k)%Z in
    let sn := if (s <? 0)%Z then num else (num * 10 ^ s)%Z in
    let sd := if (s <? 0)%Z then (den * 10 ^ (- s))%Z else den in
    let lo := (sn / sd)%Z in
    let r := (sn mod sd)%Z in
    let back c := if (s <? 0)%Z then nearest_float false (c * 10 ^ (- s)) 1
                  else nearest_float false c (10 ^ s) in
    let ok c := PrimFloat.eqb (back c) x in
    let pick c :=
      let ds := str_of_int c in
      let z := rstrip_zeros_count (rev ds) in
      (take (length ds - z) ds, (Z.of_nat (length ds) - s)%Z) in
    if (r =? 0)%Z then pick lo
    else
      let hi := (lo + 1)%Z in
      let prefer_hi := ((sd <? 2 * r) || (sd =? 2 * r) && Z.odd lo)%Z in
      match ok lo, ok hi with
      | true, true => pick (if prefer_hi then hi else lo)
      | true, false => pick lo
      | false, true => pick hi
      | false, false => shortest_digits x num den k ns'
      end
  end.

(** [repr(x)], which is also [str(x)], for a [float]. *)
Definition float_repr (x : float) : str :=
  let finite (s : bool) (num den : Z) : str :=
    let k := decimal_position num den in
    let '(ds, decpt) :=
      shortest_digits (PrimFloat.abs x) num den k
        (map Z.of_nat (seq 1 17)) in
    let n := Z.of_nat (length ds) in
    (if s then [45%N] else []) ++
    if ((decpt <=? -4) || (16 <? decpt))%Z then
      let ex := (decpt - 1)%Z in
      take 1 ds ++
      (if (1 <? n)%Z then 46%N :: drop 1 ds else []) ++
      [101%N; if (ex <? 0)%Z then 45%N else 43%N] ++
      pad_left 2 (str_of_int (Z.abs ex))
    else if (decpt <=? 0)%Z then
      u "0." ++ repeat 48%N (Z.to_nat (- decpt)) ++ ds
    else if (n <=? decpt)%Z then
      ds ++ repeat 48%N (Z.to_nat (decpt - n)) ++ u ".0"
    else
      take (Z.to_nat decpt) ds ++ 46%N :: drop (Z.to_nat decpt) ds in
  match Prim2SF x with
  | S754_nan => u "nan"
  | S754_infinity s => if s then u "-inf" else u "inf"
  | S754_zero s => if s then u "-0.0" else u "0.0"
  | S754_finite s m e =>
    if (e <? 0)%Z then finite s (Zpos m) (2 ^ (- e))%Z
    else finite s (Zpos m * 2 ^ e)%Z 1%Z
  end.

(** [sum(xs)] over floats, starting from the integer [0]: CPython 3.11
    adds from left to right. *)
Definition py_sum (xs : list float) : float :=
  fold_left PrimFloat.add xs 0%float.

(** ** modules/config.py *)

Module JudgmentStatus.
Definition OK : str := u "OK".
Definition OK_WITH_SUB : str := Eval vm_compute in u "OK (含替料)".
Definition NG_QTY_DIFF : str := Eval vm_compute in u "NG (数量差异)".
Definition NG_MISSING : str := Eval vm_compute in u "NG (缺料)".
Definition NG_NOT_IN_BOM : str := Eval vm_compute in u "NG (BOM无)".
End JudgmentStatus.

(** [CHINESE_NUM_MAP]: a dictionary keyed by one-character strings. *)
Definition CHINESE_NUM_MAP : list (str * Z) :=
  Eval vm_compute in
  [ (u "零", 0); (u "一", 1); (u "二", 2); (u "三", 3); (u "四", 4);
    (u "五", 5); (u "六", 6); (u "七", 7); (u "八", 8); (u "九", 9);
    (u "十", 10); (u "百", 100); (u "千", 1000);
    (u "壹", 1); (u "贰", 2); (u "叁", 3); (u "肆", 4); (u "伍", 5);
    (u "陆", 6); (u "柒", 7); (u "捌", 8); (u "玖", 9); (u "拾", 10) ]%Z.

(** [d[k]] guarded by [k in d], on a dictionary literal. *)
Fixpoint dict_get {V} (d : list (str * V)) (k : str) : option V :=
  match d with
  | [] => None
  | (k', v) :: d' => if str_eqb k' k then Some v else dict_get d' k
  end.

(** ** modules/utils.py: Chinese numerals *)

(** The accumulator loop of [chinese_to_arabic]: [result] and [temp] are
    threaded through the characters, an unknown character returns [None]. *)
Fixpoint chinese_loop (s : str) (result temp : Z) : option Z :=
  match s with
  | [] => Some (result + temp)%Z
  | char :: rest =>
    match dict_get CHINESE_NUM_MAP [char] with
    | Some num =>
      if (num =? 10)%Z then
        let temp := if (temp =? 0)%Z then 1%Z else temp in
        chinese_loop rest (result + temp * 10)%Z 0%Z
      else if (num =? 100)%Z then
        let temp := if (temp =? 0)%Z then 1%Z else temp in
        chinese_loop rest (result + temp * 100)%Z 0%Z
      else chinese_loop rest result num
    | None => None
    end
  end.

Definition chinese_to_arabic (chinese_str : str) : option Z :=
  if str_eqb chinese_str [] then None
  else
    let chinese_str := strip chinese_str in
    match (if (length chinese_str =? 1)%nat
           then dict_get CHINESE_NUM_MAP chinese_str else None) with
    | Some v => Some v
    | None =>
      match (if startswith (u "十") chinese_str then
               if (length chinese_str =? 1)%nat then Some 10%Z
               else
                 match dict_get CHINESE_NUM_MAP (drop 1 chinese_str) with
                 | Some v => Some (10 + v)%Z
                 | None => None
                 end
             else None) with
      | Some v => Some v
      | None =>
        match chinese_loop chinese_str 0 0 with
        | Some result => if (result >? 0)%Z then Some result else None
        | None => None
        end
      end
    end.

(** [BOX_MARKER_PATTERNS] is given with the regular expressions, below. *)

Definition HEADER_SCAN_ROWS : Z := 20.
Definition MIN_HEADER_SCORE : Z := 2.

(** ** Unicode decimal digits

    The class [\d] of a [str] pattern and the digits [float()] accepts are
    the code points of category Nd: blocks of ten consecutive code points
    (Unicode 14.0, the database of CPython 3.11), and the fifty
    mathematical digits from U+1D7CE. *)
Definition decimal_blocks : list N :=
  [ 48; 1632; 1776; 1984; 2406; 2534; 2662; 2790; 2918; 3046; 3174; 3302;
    3430; 3558; 3664; 3792; 3872; 4160; 4240; 6112; 6160; 6470; 6608; 6784;
    6800; 6992; 7088; 7232; 7248; 42528; 43216; 43264; 43472; 43504; 43600;
    44016; 65296; 66720; 68912; 69734; 69872; 69942; 70096; 70384; 70736;
    70864; 71248; 71360; 71472; 71904; 72016; 72784; 73040; 73120; 92768;
    92864; 93008; 120782; 120792; 120802; 120812; 120822; 123200; 123632;
    125264; 130032 ]%N.

(** The decimal value of a digit, [None] for any other code point. *)
Definition decimal_value (c : N) : option N :=
  match filter (fun b => (b <= c)%N /\ (c < b + 10)%N) decimal_blocks with
  | b :: _ => Some (c - b)%N
  | [] => None
  end.

Definition isdecimal (c : N) : bool := bool_decide (is_Some (decimal_value c)).

(** ** Grid cells *)

(** A cell of a raw grid: empty, text, or a number. *)
Inductive cell :=
| CNone
| CStr (s : str)
| CInt (n : Z)
| CFloat (x : float).

(** [str(value)] *)
Definition cell_str (value : cell) : str :=
  match value with
  | CNone => u "None"
  | CStr s => s
  | CInt n => str_of_int n
  | CFloat x => float_repr x
  end.

(** The truth value of a cell, as in [str(c) if c else '']. *)
Definition cell_truthy (value : cell) : bool :=
  match value with
  | CNone => false
  | CStr s => negb (str_eqb s [])
  | CInt n => negb (n =? 0)%Z
  | CFloat x => negb (PrimFloat.eqb x 0%float)
  end.

(** ** modules/utils.py: cleaning *)

(** The characters removed by the substitution in [clean_part_number]. *)
Definition invisible_nbsp (c : N) : bool :=
  ((c <=? 31) || (127 <=? c) && (c <=? 159)
   || (8203 <=? c) && (c <=? 8205) || (c =? 65279) || (c =? 160))%N.

(** The same class without the non-breaking space ([clean_cell_value],
    [normalize_box_number]). *)
Definition invisible (c : N) : bool :=
  ((c <=? 31) || (127 <=? c) && (c <=? 159)
   || (8203 <=? c) && (c <=? 8205) || (c =? 65279))%N.

Definition strip_dot_zero (s : str) : str :=
  if endswith (u ".0") s then take (length s - 2) s else s.

(** [clean_part_number] after the value has been turned into text: both
    strips, the quote prefixes, the quote removal and the substitution. *)
Definition clean_text (str_val : str) : str :=
  let str_val := strip str_val in
  let str_val :=
    lstrip_char 96 (lstrip_char 39 (lstrip_char 39 (lstrip_char 39 str_val))) in
  let str_val := remove_char 39 (remove_char 39 (remove_char 39 str_val)) in
  let str_val := filter (fun c => negb (invisible_nbsp c)) str_val in
  strip str_val.

(** [clean_part_number] on a [str] argument, as the engine calls it on the
    part ids of its records. *)
Definition clean_part_number_str (value : str) : str :=
  clean_text (strip_dot_zero value).

(** [clean_part_number] on a cell of any type. *)
Definition clean_part_number (value : cell) : result str :=
  match value with
  | CNone => Ok []
  | CFloat x =>
    if negb (PrimFloat.eqb x x) then Ok []
    else
      n ← int_of_float x;
      Ok (clean_text (if float_eq_int x n then str_of_int n else float_repr x))
  | _ => Ok (clean_part_number_str (cell_str value))
  end.

(** [normalize_box_number] *)
Definition normalize_box_number (box_value : cell) : result str :=
  let finish (box_str : str) : str :=
    strip (filter (fun c => negb (invisible c)) box_str) in
  match box_value with
  | CNone => Ok []
  | CFloat x =>
    if negb (PrimFloat.eqb x x) then Ok []
    else
      n ← int_of_float x;
      Ok (finish (if float_eq_int x n then str_of_int n
                  else strip (float_repr x)))
  | _ => Ok (finish (strip_dot_zero (strip (cell_str box_value))))
  end.

(** [is_empty_row] *)
Definition is_empty_row (row : list cell) : bool :=
  forallb
    (fun c =>
       match c with
       | CNone => true
       | _ =>
         let cell_str := strip (cell_str c) in
         negb (negb (str_eqb cell_str []) &&
               negb (str_in (ascii_lower cell_str) [u "nan"; u "none"; []]))
       end)
    row.

(** [re.findall(r'\d+', text)]: the maximal runs of decimal digits. *)
Fixpoint digit_runs (text : str) (run : str) : list str :=
  match text with
  | [] => match run with [] => [] | _ => [run] end
  | c :: rest =>
    if isdecimal c then digit_runs rest (run ++ [c])
    else match run with
         | [] => digit_runs rest []
         | _ => run :: digit_runs rest []
         end
  end.

(** The loop of [extract_substitute_ids]: first occurrences of the runs
    of at least three digits. *)
Fixpoint dedup_long (matches : list str) (seen : gset str) : list str :=
  match matches with
  | [] => []
  | m :: rest =>
    if bool_decide (m ∉ seen) && (3 <=? length m)%nat
    then m :: dedup_long rest ({[ m ]} ∪ seen)
    else dedup_long rest seen
  end.

(** [extract_substitute_ids] *)
Definition extract_substitute_ids (substitute_text : cell) : list str :=
  match substitute_text with
  | CNone => []
  | _ =>
    let text := strip (cell_str substitute_text) in
    if str_eqb text [] ||
       str_in (ascii_lower text)
         [u "nan"; u "none"; u "无"; u "-"; []; u "null"]
    then []
    else dedup_long (digit_runs text []) ∅
  end.

(** [format_number], on a float. *)
Definition format_number (value : float) : result str :=
  n ← int_of_float value;
  Ok (if float_eq_int value n then str_of_int n else format_fixed 2 value).

(** ** Sets and sorting *)

(** The order in which a [set] of strings is iterated.  It depends on the
    hashes of the strings, which change from one interpreter process to
    the next; the engine takes it as a parameter, and every iteration
    over a set goes through it. *)
Definition set_order := gset str -> list str.

(** What is known of an iteration: it visits every element once. *)
Definition iterates (it : set_order) : Prop :=
  forall s : gset str, it s ≡ₚ elements s.

(** [a <= b] on strings: code point by code point. *)
Definition str_le (a b : str) : Prop := ¬ lexico b a.

(** [key(a) <= key(b)] for [key = lambda x: (len(x), x)]. *)
Definition len_key_le (a b : str) : Prop :=
  ¬ lexico (length b, b) (length a, a).

Global Instance str_le_dec : RelDecision str_le.
Proof. intros a b. unfold str_le. apply _. Defined.

Global Instance len_key_le_dec : RelDecision len_key_le.
Proof. intros a b. unfold len_key_le. apply _. Defined.

(** [sorted(xs)] and [sorted(xs, key=lambda x: (len(x), x))]: stable
    sorts. *)
Definition sorted (xs : list str) : list str := merge_sort str_le xs.
Definition sorted_by_len (xs : list str) : list str := merge_sort len_key_le xs.

(** [merge_box_numbers] *)
Definition merge_box_numbers (it : set_order) (box_list : list str) : str :=
  match box_list with
  | [] => u "-"
  | _ =>
    let unique_boxes :=
      sorted_by_len
        (it (list_to_set (filter (fun b => b <> []) box_list))) in
    match unique_boxes with
    | [] => u "-"
    | _ => join (u ", ") unique_boxes
    end
  end.

(** ** modules/file_reader.py: the item records *)

Module BOMItem.
Record t := mk {
  main_part_id : str;
  quantity : float;
  substitute_ids : list str;
  name : str;
  row_index : Z
}.
End BOMItem.

Module ListItem.
Record t := mk {
  part_id : str;
  quantity : float;
  box_number : str;
  row_index : Z
}.
End ListItem.

(** ** modules/data_processor.py: the reconciliation engine *)

Module CompareResult.
Record t := mk {
  work_order : str;
  part_id : str;
  part_name : str;
  bom_quantity : float;
  actual_quantity : float;
  difference : float;
  status : str;
  box_sources : list str;
  matched_substitutes : list str;
  remark : str
}.

Definition is_pass (r : t) : bool := startswith (u "OK") (status r).
Definition is_ng (r : t) : bool := startswith (u "NG") (status r).
End CompareResult.

Module MatchResult.
Record t := mk {
  compare_result : CompareResult.t;
  matched_part_ids : gset str
}.
End MatchResult.

(** [part_lookup.get(pid, [])] on the index of a checklist. *)
Definition lookup_items (part_lookup : gmap str (list ListItem.t)) (pid : str)
  : list ListItem.t :=
  default [] (part_lookup !! pid).

(** [build_part_lookup]: [lookup.setdefault(pid, []).append(item)] for
    every item whose cleaned part id is not empty. *)
Definition build_part_lookup (list_items : list ListItem.t)
  : gmap str (list ListItem.t) :=
  fold_left
    (fun lookup item =>
       let pid := clean_part_number_str (ListItem.part_id item) in
       if bool_decide (pid <> [])
       then <[ pid := lookup_items lookup pid ++ [item] ]> lookup
       else lookup)
    list_items ∅.

(** The candidate ids of a BOM record: the main id, then the cleaned
    substitutes that are neither empty nor the main id. *)
Definition substitutes_of (bom_item : BOMItem.t) : list str :=
  let main_part := clean_part_number_str (BOMItem.main_part_id bom_item) in
  let substitutes :=
    map clean_part_number_str
      (filter (fun s => s <> []) (BOMItem.substitute_ids bom_item)) in
  filter (fun s => s <> [] /\ s <> main_part) substitutes.

Definition all_parts_of (bom_item : BOMItem.t) : list str :=
  clean_part_number_str (BOMItem.main_part_id bom_item)
    :: substitutes_of bom_item.

(** The state of the matching loop of [match_bom_item]. *)
Record match_state := mk_match_state {
  matched_items : list ListItem.t;
  matched_sub_ids : gset str;
  matched_list_ids : gset str
}.

Fixpoint match_loop (part_lookup : gmap str (list ListItem.t))
    (main_part : str) (all_parts : list str) (st : match_state)
  : match_state :=
  match all_parts with
  | [] => st
  | pid :: rest =>
    match part_lookup !! pid with
    | Some items =>
      match_loop part_lookup main_part rest
        {| matched_items := matched_items st ++ items;
           matched_sub_ids :=
             if bool_decide (pid <> main_part)
             then {[ pid ]} ∪ matched_sub_ids st else matched_sub_ids st;
           matched_list_ids := {[ pid ]} ∪ matched_list_ids st |}
    | None => match_loop part_lookup main_part rest st
    end
  end.

(** [abs(diff) < 0.001] *)
Definition within_tolerance (diff : float) : bool :=
  PrimFloat.ltb (PrimFloat.abs diff) 0.001%float.

Definition boxes_of (items : list ListItem.t) : list str :=
  filter (fun b => b <> []) (map ListItem.box_number items).

Definition quantities_of (items : list ListItem.t) : list float :=
  map ListItem.quantity items.

(** [match_bom_item] *)
Definition match_bom_item (it : set_order) (bom_item : BOMItem.t)
    (part_lookup : gmap str (list ListItem.t)) (work_order : str)
  : result MatchResult.t :=
  let main_part := clean_part_number_str (BOMItem.main_part_id bom_item) in
  let st :=
    match_loop part_lookup main_part (all_parts_of bom_item)
      {| matched_items := []; matched_sub_ids := ∅; matched_list_ids := ∅ |} in
  let actual := py_sum (quantities_of (matched_items st)) in
  let boxes := boxes_of (matched_items st) in
  let diff := PrimFloat.sub actual (BOMItem.quantity bom_item) in
  let subs_text := join (u ", ") (sorted (it (matched_sub_ids st))) in
  let has_subs := bool_decide (matched_sub_ids st <> ∅) in
  '(status, remarks) ←
    match matched_items st with
    | [] => Ok (JudgmentStatus.NG_MISSING, [u "清单中未找到该料号及其替代料"])
    | _ =>
      if within_tolerance diff then
        if has_subs
        then Ok (JudgmentStatus.OK_WITH_SUB, [u "使用替代料: " ++ subs_text])
        else Ok (JudgmentStatus.OK, [])
      else
        shown ← format_number diff;
        Ok (JudgmentStatus.NG_QTY_DIFF,
            ((if PrimFloat.ltb 0%float diff then u "超量 +" else u "欠量 ")
               ++ shown)
              :: (if has_subs then [u "含替代料: " ++ subs_text] else []))
    end;
  Ok {| MatchResult.compare_result :=
          {| CompareResult.work_order := work_order;
             CompareResult.part_id := main_part;
             CompareResult.part_name := BOMItem.name bom_item;
             CompareResult.bom_quantity := BOMItem.quantity bom_item;
             CompareResult.actual_quantity := actual;
             CompareResult.difference := diff;
             CompareResult.status := status;
             CompareResult.box_sources := boxes;
             CompareResult.matched_substitutes := it (matched_sub_ids st);
             CompareResult.remark := join (u "; ") remarks |};
        MatchResult.matched_part_ids := matched_list_ids st |}.

(** A dictionary whose items are iterated: the keys in insertion order. *)
Fixpoint setdefault_append {V} (d : list (str * list V)) (k : str) (v : V)
  : list (str * list V) :=
  match d with
  | [] => [(k, [v])]
  | (k', vs) :: d' =>
    if bool_decide (k' = k) then (k', vs ++ [v]) :: d'
    else (k', vs) :: setdefault_append d' k v
  end.

(** The first loop of [find_unmatched_list_items]. *)
Definition unmatched_groups (list_items : list ListItem.t)
    (bom_all_parts : gset str) : list (str * list ListItem.t) :=
  fold_left
    (fun unmatched item =>
       let pid := clean_part_number_str (ListItem.part_id item) in
       if bool_decide (pid <> []) && bool_decide (pid ∉ bom_all_parts)
       then setdefault_append unmatched pid item
       else unmatched)
    list_items [].

(** [find_unmatched_list_items] *)
Definition find_unmatched_list_items (list_items : list ListItem.t)
    (bom_all_parts : gset str) (work_order : str) : list CompareResult.t :=
  map
    (fun '(pid, items) =>
       let total := py_sum (quantities_of items) in
       {| CompareResult.work_order := work_order;
          CompareResult.part_id := pid;
          CompareResult.part_name := [];
          CompareResult.bom_quantity := 0%float;
          CompareResult.actual_quantity := total;
          CompareResult.difference := total;
          CompareResult.status := JudgmentStatus.NG_NOT_IN_BOM;
          CompareResult.box_sources := boxes_of items;
          CompareResult.matched_substitutes := [];
          CompareResult.remark := u "疑似技术变更或异常混料，请核实" |})
    (unmatched_groups list_items bom_all_parts).

(** The set [bom_all] of [compare_bom_and_list]: every cleaned, non-empty
    main id and substitute id of the BOM. *)
Definition bom_all_parts (bom_items : list BOMItem.t) : gset str :=
  fold_left
    (fun bom_all b =>
       let mp := clean_part_number_str (BOMItem.main_part_id b) in
       let bom_all := if bool_decide (mp <> []) then {[ mp ]} ∪ bom_all
                      else bom_all in
       fold_left
         (fun bom_all s =>
            let sc := clean_part_number_str s in
            if bool_decide (sc <> []) then {[ sc ]} ∪ bom_all else bom_all)
         (BOMItem.substitute_ids b) bom_all)
    bom_items ∅.

(** One row of the result table. *)
Module Row.
Record t := mk {
  work_order : str;
  part_id : str;
  name : str;
  bom_quantity : str;
  actual : str;
  difference : str;
  status : str;
  box_sources : str;
  remark : str
}.
End Row.

Module Stats.
Record t := mk {
  total_items : nat;
  bom_items_count : nat;
  ok_count : nat;
  ng_count : nat;
  pass_rate : float;
  ok_main_only : nat;
  ok_with_substitute : nat;
  substitute_used_count : nat;
  ng_qty_difference : nat;
  ng_missing : nat;
  ng_not_in_bom : nat;
  list_type : str
}.
End Stats.

Definition or_dash (s : str) : str := if str_eqb s [] then u "-" else s.

Definition count_status (all_res : list CompareResult.t) (status : str) : nat :=
  length (filter (fun r => CompareResult.status r = status) all_res).

(** The records of [compare_bom_and_list] before they are formatted:
    [bom_results], with the ids each one matched, and [extra]. *)
Definition bom_match_results (it : set_order) (bom_items : list BOMItem.t)
    (list_items : list ListItem.t) (work_order : str)
  : result (list MatchResult.t) :=
  let lookup := build_part_lookup list_items in
  mapM (fun b => match_bom_item it b lookup work_order) bom_items.

Definition extra_results (bom_items : list BOMItem.t)
    (list_items : list ListItem.t) (work_order : str)
  : list CompareResult.t :=
  find_unmatched_list_items list_items (bom_all_parts bom_items) work_order.

Definition all_results (it : set_order) (bom_items : list BOMItem.t)
    (list_items : list ListItem.t) (work_order : str)
  : result (list CompareResult.t) :=
  mrs ← bom_match_results it bom_items list_items work_order;
  Ok (map MatchResult.compare_result mrs
        ++ extra_results bom_items list_items work_order).

Definition row_of (it : set_order) (r : CompareResult.t) : result Row.t :=
  bq ← format_number (CompareResult.bom_quantity r);
  aq ← format_number (CompareResult.actual_quantity r);
  df ← format_number (CompareResult.difference r);
  Ok {| Row.work_order := or_dash (CompareResult.work_order r);
        Row.part_id := CompareResult.part_id r;
        Row.name := or_dash (CompareResult.part_name r);
        Row.bom_quantity := bq;
        Row.actual := aq;
        Row.difference := df;
        Row.status := CompareResult.status r;
        Row.box_sources := merge_box_numbers it (CompareResult.box_sources r);
        Row.remark := CompareResult.remark r |}.

Definition stats_of (bom_items : list BOMItem.t)
    (all_res : list CompareResult.t) (list_label : str) : Stats.t :=
  let total := length all_res in
  let ok := length (filter (fun r => CompareResult.is_pass r = true) all_res) in
  let ng := length (filter (fun r => CompareResult.is_ng r = true) all_res) in
  {| Stats.total_items := total;
     Stats.bom_items_count := length bom_items;
     Stats.ok_count := ok;
     Stats.ng_count := ng;
     Stats.pass_rate :=
       match total with
       | O => 0%float
       | _ => PrimFloat.mul
                (nearest_float false (Z.of_nat ok) (Z.of_nat total))
                100%float
       end;
     Stats.ok_main_only := count_status all_res JudgmentStatus.OK;
     Stats.ok_with_substitute := count_status all_res JudgmentStatus.OK_WITH_SUB;
     Stats.substitute_used_count :=
       count_status all_res JudgmentStatus.OK_WITH_SUB;
     Stats.ng_qty_difference := count_status all_res JudgmentStatus.NG_QTY_DIFF;
     Stats.ng_missing := count_status all_res JudgmentStatus.NG_MISSING;
     Stats.ng_not_in_bom := count_status all_res JudgmentStatus.NG_NOT_IN_BOM;
     Stats.list_type := list_label |}.

(** [compare_bom_and_list]: the rows of the result table and the
    statistics. *)
Definition compare_bom_and_list (it : set_order) (bom_items : list BOMItem.t)
    (list_items : list ListItem.t) (list_label work_order : str)
  : result (list Row.t * Stats.t) :=
  all_res ← all_results it bom_items list_items work_order;
  rows ← mapM (row_of it) all_res;
  Ok (rows, stats_of bom_items all_res list_label).

(** ** float(text)

    The constructor [float] on a [str], as CPython 3.11 reads it: code
    points beyond ASCII are mapped to ASCII (spaces and decimal digits),
    ASCII white space is stripped, single underscores between digits are
    dropped, and what remains is a signed decimal number with an optional
    exponent, or one of [inf], [infinity], [nan]. *)

Definition is_ascii_space (c : N) : bool :=
  ((9 <=? c) && (c <=? 13) || (c =? 32))%N.

Definition is_ascii_digit (c : N) : bool := ((48 <=? c) && (c <=? 57))%N.

Fixpoint transform_decimal_and_space (s : str) : str :=
  match s with
  | [] => []
  | c :: r =>
    if (c <? 127)%N then c :: transform_decimal_and_space r
    else if isspace c then 32%N :: transform_decimal_and_space r
    else match decimal_value c with
         | Some d => (48 + d)%N :: transform_decimal_and_space r
         | None => [63%N]
         end
  end.

Definition to_ascii_number (s : str) : str :=
  if forallb (fun c => (c <? 128)%N) s then s
  else transform_decimal_and_space s.

Fixpoint drop_underscores (s : str) (prev : N) : option str :=
  match s with
  | [] => if (prev =? 95)%N then None else Some []
  | c :: r =>
    if (c =? 95)%N then
      if is_ascii_digit prev then drop_underscores r c else None
    else if (prev =? 95)%N && negb (is_ascii_digit c) then None
    else cons c <$> drop_underscores r c
  end.

Fixpoint span_digits (s : str) : str * str :=
  match s with
  | c :: r =>
    if is_ascii_digit c then
      let p := span_digits r in (c :: fst p, snd p)
    else ([], s)
  | [] => ([], [])
  end.

Definition digits_to_int (ds : str) : Z :=
  fold_left (fun acc c => (acc * 10 + (Z.of_N c - 48))%Z) ds 0%Z.

Definition split_sign (s : str) : bool * str :=
  match s with
  | 45%N :: r => (true, r)
  | 43%N :: r => (false, r)
  | _ => (false, s)
  end.

(** The float nearest to [digits * 10^exp10].  Numbers too large or too
    small for binary64 are settled without building the power of ten. *)
Definition decimal_to_float (neg : bool) (digits : str) (exp10 : Z) : float :=
  let d := digits_to_int digits in
  if (d =? 0)%Z then SF2Prim (S754_zero neg)
  else
    let nd := Z.of_nat (length (str_of_int d)) in
    if (309 <=? nd - 1 + exp10)%Z then SF2Prim (S754_infinity neg)
    else if (nd + exp10 <=? -325)%Z then SF2Prim (S754_zero neg)
    else if (exp10 <? 0)%Z then nearest_float neg d (10 ^ (- exp10))
    else nearest_float neg (d * 10 ^ exp10) 1.

Definition parse_float_ascii (s : str) : option float :=
  let '(neg, s1) := split_sign s in
  let low := ascii_lower s1 in
  if str_eqb low (u "inf") || str_eqb low (u "infinity")
  then Some (SF2Prim (S754_infinity neg))
  else if str_eqb low (u "nan") then Some nan
  else
    let '(ip, r1) := span_digits s1 in
    let '(fp, r2) :=
      match r1 with
      | 46%N :: r => span_digits r
      | _ => ([], r1)
      end in
    if (length ip + length fp =? 0)%nat then None
    else
      match r2 with
      | [] => Some (decimal_to_float neg (ip ++ fp) (- Z.of_nat (length fp)))
      | c :: r3 =>
        if (c =? 101)%N || (c =? 69)%N then
          let '(eneg, r4) := split_sign r3 in
          let '(ed, r5) := span_digits r4 in
          match ed, r5 with
          | _ :: _, [] =>
            let e := digits_to_int ed in
            Some (decimal_to_float neg (ip ++ fp)
                    ((if eneg then - e else e) - Z.of_nat (length fp)))
          | _, _ => None
          end
        else None
      end.

(** [float(text)]: [None] stands for the [ValueError] of a text that is
    not a number. *)
Definition py_float (text : str) : option float :=
  let s := to_ascii_number text in
  let s := rstrip_with is_ascii_space (lstrip_with is_ascii_space s) in
  s ← drop_underscores s 0%N;
  parse_float_ascii s.

(** ** eval(text) on an arithmetic expression

    [safe_eval_expression] hands to [eval] only texts made of digits,
    white space and the characters [+ - * / . ( )].  The model covers the
    expressions built from decimal literals, unary and binary [+ - * /]
    and parentheses, separated by spaces and tabs, up to a hundred tokens.
    Anything else such a text can hold (the operators [**] and [//], a
    lone dot, a call, an empty tuple, other white space or digits, an
    integer literal of more than 4300 digits) is [EvUnmodelled]. *)

Inductive token :=
| TInt (n : Z)
| TFloat (x : float)
| TPlus | TMinus | TStar | TSlash | TLParen | TRParen.

Inductive lexed :=
| LexOk (ts : list token)
| LexSyntaxError
| LexUnmodelled.

Definition lex_cons (t : token) (r : lexed) : lexed :=
  match r with
  | LexOk ts => LexOk (t :: ts)
  | _ => r
  end.

Fixpoint lex (fuel : nat) (s : str) : lexed :=
  match fuel with
  | O => LexUnmodelled
  | S k =>
    match s with
    | [] => LexOk []
    | c :: r =>
      if (c =? 32)%N || (c =? 9)%N then lex k r
      else if (c =? 43)%N then lex_cons TPlus (lex k r)
      else if (c =? 45)%N then lex_cons TMinus (lex k r)
      else if (c =? 40)%N then lex_cons TLParen (lex k r)
      else if (c =? 41)%N then lex_cons TRParen (lex k r)
      else if (c =? 42)%N then
        match r with
        | 42%N :: _ => LexUnmodelled
        | _ => lex_cons TStar (lex k r)
        end
      else if (c =? 47)%N then
        match r with
        | 47%N :: _ => LexUnmodelled
        | _ => lex_cons TSlash (lex k r)
        end
      else if is_ascii_digit c || (c =? 46)%N then
        let '(ip, r1) := span_digits s in
        match r1 with
        | 46%N :: r2 =>
          let '(fp, r3) := span_digits r2 in
          if (length ip + length fp =? 0)%nat then LexUnmodelled
          else lex_cons
                 (TFloat (decimal_to_float false (ip ++ fp)
                            (- Z.of_nat (length fp))))
                 (lex k r3)
        | _ =>
          if (4300 <? length ip)%nat then LexUnmodelled
          else if (1 <? length ip)%nat && startswith [48%N] ip
                  && negb (forallb (N.eqb 48) ip)
          then LexSyntaxError
          else lex_cons (TInt (digits_to_int ip)) (lex k r1)
        end
      else LexUnmodelled
    end
  end.

Inductive value := VInt (n : Z) | VFloat (x : float).

Inductive binop := Add | Sub | Mul | Div.

Inductive expr :=
| ENum (v : value)
| EPos (e : expr)
| ENeg (e : expr)
| EBin (op : binop) (a b : expr).

Inductive parsed :=
| POk (e : expr) (rest : list token)
| PSyntaxError
| PUnmodelled.

(** An operand followed by an opening parenthesis is a call. *)
Definition after_atom (e : expr) (rest : list token) : parsed :=
  match rest with
  | TLParen :: _ => PUnmodelled
  | _ => POk e rest
  end.

(** Python's grammar on these tokens: sums of terms, terms of factors,
    signed factors, atoms. *)
Fixpoint parse_sum (fuel : nat) (ts : list token) : parsed :=
  match fuel with
  | O => PUnmodelled
  | S k =>
    match parse_term k ts with
    | POk a rest => sum_tail k a rest
    | other => other
    end
  end
with sum_tail (fuel : nat) (a : expr) (ts : list token) : parsed :=
  match fuel with
  | O => PUnmodelled
  | S k =>
    match ts with
    | TPlus :: r =>
      match parse_term k r with
      | POk b rest => sum_tail k (EBin Add a b) rest
      | other => other
      end
    | TMinus :: r =>
      match parse_term k r with
      | POk b rest => sum_tail k (EBin Sub a b) rest
      | other => other
      end
    | _ => POk a ts
    end
  end
with parse_term (fuel : nat) (ts : list token) : parsed :=
  match fuel with
  | O => PUnmodelled
  | S k =>
    match parse_factor k ts with
    | POk a rest => term_tail k a rest
    | other => other
    end
  end
with term_tail (fuel : nat) (a : expr) (ts : list token) : parsed :=
  match fuel with
  | O => PUnmodelled
  | S k =>
    match ts with
    | TStar :: r =>
      match parse_factor k r with
      | POk b rest => term_tail k (EBin Mul a b) rest
      | other => other
      end
    | TSlash :: r =>
      match parse_factor k r with
      | POk b rest => term_tail k (EBin Div a b) rest
      | other => other
      end
    | _ => POk a ts
    end
  end
with parse_factor (fuel : nat) (ts : list token) : parsed :=
  match fuel with
  | O => PUnmodelled
  | S k =>
    match ts with
    | TPlus :: r =>
      match parse_factor k r with
      | POk e rest => POk (EPos e) rest
      | other => other
      end
    | TMinus :: r =>
      match parse_factor k r with
      | POk e rest => POk (ENeg e) rest
      | other => other
      end
    | TInt n :: r => after_atom (ENum (VInt n)) r
    | TFloat x :: r => after_atom (ENum (VFloat x)) r
    | TLParen :: TRParen :: _ => PUnmodelled
    | TLParen :: r =>
      match parse_sum k r with
      | POk e (TRParen :: rest) => after_atom e rest
      | POk _ _ => PSyntaxError
      | other => other
      end
    | _ => PSyntaxError
    end
  end.

Inductive eval_outcome :=
| EvValue (v : value)
| EvSyntaxError
| EvZeroDivisionError
| EvOverflowError
| EvUnmodelled.

(** The conversion of an operand to a float in mixed arithmetic. *)
Definition to_double (v : value) : option float :=
  match v with
  | VFloat x => Some x
  | VInt n =>
    match float_of_int n with
    | Ok x => Some x
    | _ => None
    end
  end.

Definition apply_binop (op : binop) (a b : value) : eval_outcome :=
  match op, a, b with
  | Add, VInt x, VInt y => EvValue (VInt (x + y))
  | Sub, VInt x, VInt y => EvValue (VInt (x - y))
  | Mul, VInt x, VInt y => EvValue (VInt (x * y))
  | Div, VInt x, VInt y =>
    if (y =? 0)%Z then EvZeroDivisionError
    else
      let q := nearest_float (xorb (x <? 0)%Z (y <? 0)%Z) (Z.abs x) (Z.abs y) in
      if is_infinity q then EvOverflowError else EvValue (VFloat q)
  | _, _, _ =>
    match to_double a, to_double b with
    | Some x, Some y =>
      match op with
      | Add => EvValue (VFloat (x + y))
      | Sub => EvValue (VFloat (x - y))
      | Mul => EvValue (VFloat (x * y))
      | Div => if PrimFloat.eqb y 0%float then EvZeroDivisionError
               else EvValue (VFloat (x / y))
      end
    | _, _ => EvOverflowError
    end
  end.

(** Operands are evaluated from left to right; the first exception
    ends the evaluation. *)
Fixpoint eval_expr (e : expr) : eval_outcome :=
  match e with
  | ENum v => EvValue v
  | EPos a => eval_expr a
  | ENeg a =>
    match eval_expr a with
    | EvValue (VInt n) => EvValue (VInt (- n))
    | EvValue (VFloat x) => EvValue (VFloat (- x))
    | other => other
    end
  | EBin op a b =>
    match eval_expr a with
    | EvValue va =>
      match eval_expr b with
      | EvValue vb => apply_binop op va vb
      | other => other
      end
    | other => other
    end
  end.

(** [eval(text, {"__builtins__": {}}, {})] *)
Definition py_eval (text : str) : eval_outcome :=
  match lex (S (length text)) text with
  | LexUnmodelled => EvUnmodelled
  | LexSyntaxError => EvSyntaxError
  | LexOk ts =>
    if (100 <? length ts)%nat then EvUnmodelled
    else
      match parse_sum (4 * length ts + 4) ts with
      | POk e [] => eval_expr e
      | POk _ _ => EvSyntaxError
      | PSyntaxError => EvSyntaxError
      | PUnmodelled => EvUnmodelled
      end
  end.

(** ** modules/utils.py: the quantity evaluator *)

(** [expr_str]: the text with its white space and its leading quotes
    stripped. *)
Definition expression_text (s : str) : str :=
  lstrip_char 39 (lstrip_char 39 (lstrip_char 39 (strip s))).

(** The tokens [safe_eval_expression] reads as an absent quantity. *)
Definition is_null_token (expr_str : str) : bool :=
  str_eqb expr_str [] ||
  str_in (ascii_lower expr_str) [u "nan"; u "none"; []; u "-"].

(** One character of the class of [allowed_pattern]. *)
Definition allowed_char (c : N) : bool :=
  isdecimal c || isspace c ||
  bool_decide (c ∈ [43; 45; 42; 47; 46; 40; 41]%N).

(** [re.match(allowed_pattern, expr_str)] *)
Definition allowed_pattern (expr_str : str) : bool :=
  negb (str_eqb expr_str []) && forallb allowed_char expr_str.

(** [safe_eval_expression] *)
Definition safe_eval_expression (expression : cell) : result (option float) :=
  match expression with
  | CNone => Ok None
  | CInt n => x ← float_of_int n; Ok (Some x)
  | CFloat x => if negb (PrimFloat.eqb x x) then Ok None else Ok (Some x)
  | CStr s =>
    let expr_str := expression_text s in
    if is_null_token expr_str then Ok None
    else
      match py_float expr_str with
      | Some x => Ok (Some x)
      | None =>
        if negb (allowed_pattern expr_str) then Ok None
        else
          match py_eval expr_str with
          | EvValue (VFloat x) => Ok (Some x)
          | EvValue (VInt n) => x ← float_of_int n; Ok (Some x)
          | EvSyntaxError | EvZeroDivisionError => Ok None
          | EvOverflowError => Raise OverflowError
          | EvUnmodelled => Unmodelled
          end
      end
  end.

(** ** Regular expressions

    The patterns of the program are sequences of quantified character
    classes with one capturing group.  [match_here] is the backtracking
    matcher of [re]: quantifiers are greedy, and the first way to match
    that succeeds is the match. *)

Inductive quant := QOne | QOpt | QStar | QPlus.

Record atom := mk_atom {
  cls : N -> bool;
  qt : quant;
  grp : bool
}.

(** The text of group 1 when the atoms match a prefix of [s]. *)
Fixpoint match_here (r : list atom) (s : str) (g : str) {struct r}
  : option str :=
  match r with
  | [] => Some g
  | a :: r' =>
    let add (c : N) (g : str) := if grp a then g ++ [c] else g in
    let star :=
      fix star (s : str) (g : str) {struct s} : option str :=
        match s with
        | c :: s' =>
          if cls a c then
            match star s' (add c g) with
            | Some res => Some res
            | None => match_here r' s g
            end
          else match_here r' s g
        | [] => match_here r' [] g
        end in
    match qt a with
    | QOne =>
      match s with
      | c :: s' => if cls a c then match_here r' s' (add c g) else None
      | [] => None
      end
    | QOpt =>
      match s with
      | c :: s' =>
        if cls a c then
          match match_here r' s' (add c g) with
          | Some res => Some res
          | None => match_here r' s g
          end
        else match_here r' s g
      | [] => match_here r' [] g
      end
    | QStar => star s g
    | QPlus =>
      match s with
      | c :: s' => if cls a c then star s' (add c g) else None
      | [] => None
      end
    end
  end.

(** [re.search(pattern, text)]: the leftmost match; its group 1. *)
Fixpoint re_search (r : list atom) (s : str) : option str :=
  match match_here r s [] with
  | Some g => Some g
  | None =>
    match s with
    | [] => None
    | _ :: s' => re_search r s'
    end
  end.

Definition one_of (chars : string) (c : N) : bool := bool_decide (c ∈ u chars).

Definition lit (chars : string) : atom := mk_atom (one_of chars) QOne false.

(** The class of the Chinese numerals the box markers are written with. *)
Definition chinese_digit_class : N -> bool := one_of "一二三四五六七八九十百".

(** [BOX_MARKER_PATTERNS] (modules/config.py) *)
Definition BOX_MARKER_PATTERNS : list (list atom) :=
  [ [ mk_atom (one_of "第") QOpt false; mk_atom isspace QStar false;
      mk_atom isdecimal QPlus true; mk_atom isspace QStar false;
      mk_atom (one_of "号") QOpt false; mk_atom isspace QStar false;
      lit "箱" ];
    [ mk_atom (one_of "第") QOpt false; mk_atom isspace QStar false;
      mk_atom chinese_digit_class QPlus true; mk_atom isspace QStar false;
      mk_atom (one_of "号") QOpt false; mk_atom isspace QStar false;
      lit "箱" ];
    [ lit "Bb"; lit "o"; lit "x"; mk_atom isspace QStar false;
      mk_atom (one_of "#№") QOpt false; mk_atom isspace QStar false;
      mk_atom isdecimal QPlus true ];
    [ lit "Cc"; lit "a"; lit "r"; lit "t"; lit "o"; lit "n";
      mk_atom isspace QStar false;
      mk_atom (one_of "#№") QOpt false; mk_atom isspace QStar false;
      mk_atom isdecimal QPlus true ] ].

(** [re.match(r'^[一二三四五六七八九十百]+$', box_num)]: the dollar also
    matches before a final newline. *)
Definition is_chinese_numeral (box_num : str) : bool :=
  let rest := lstrip_with chinese_digit_class box_num in
  (length rest <? length box_num)%nat &&
  (str_eqb rest [] || str_eqb rest [10%N]).

Definition box_label (number : str) : str := number ++ u "号箱".

(** The loop of [extract_box_number_from_text] over the patterns. *)
Fixpoint extract_box_loop (text : str) (patterns : list (list atom))
  : option str :=
  match patterns with
  | [] => None
  | pattern :: rest =>
    match re_search pattern text with
    | Some box_num =>
      if is_chinese_numeral box_num then
        match chinese_to_arabic box_num with
        | Some arabic_num =>
          if (arabic_num =? 0)%Z then extract_box_loop text rest
          else Some (box_label (str_of_int arabic_num))
        | None => extract_box_loop text rest
        end
      else Some (box_label box_num)
    | None => extract_box_loop text rest
    end
  end.

(** [extract_box_number_from_text] *)
Definition extract_box_number_from_text (text : str)
    (patterns : list (list atom)) : option str :=
  if str_eqb text [] then None
  else extract_box_loop (strip text) patterns.

(** ** modules/file_reader.py: the grid parsers *)

(** [l[i]] for an [int] index: a negative index counts from the end, and
    an index outside the list raises [IndexError]. *)
Definition py_index {A} (l : list A) (i : Z) : result A :=
  let j := if (i <? 0)%Z then (Z.of_nat (length l) + i)%Z else i in
  if (j <? 0)%Z then Raise IndexError
  else
    match l !! Z.to_nat j with
    | Some x => Ok x
    | None => Raise IndexError
    end.

(** [l[start:]]: a negative start counts from the end, and the slice is
    clipped to the list. *)
Definition py_slice_from {A} (l : list A) (start : Z) : list A :=
  let n := Z.of_nat (length l) in
  let first := if (start <? 0)%Z then Z.max (n + start) 0 else Z.min start n in
  drop (Z.to_nat first) l.

(** [row[i] if i < len(row) else None] *)
Definition cell_at (row : list cell) (i : Z) : result cell :=
  if (i <? Z.of_nat (length row))%Z then py_index row i else Ok CNone.

(** [MappingConfig] (modules/config.py): the indices are Python
    integers. *)
Module MappingConfig.
Record t := mk {
  header_row : Z;
  part_col : Z;
  qty_col : Z;
  box_col : option Z;
  name_col : option Z;
  substitute_col : option Z;
  stream_parse : bool
}.
End MappingConfig.

Module ParseMode.
Definition STANDARD : str := Eval vm_compute in u "标准列模式".
Definition STREAM : str := Eval vm_compute in u "流式分箱模式".
End ParseMode.

Module ParseDiagnostics.
Record t := mk {
  file_type : str;
  header_row : Z;
  header_score : nat;
  parse_mode : str;
  total_rows : nat;
  parsed_items : nat;
  skipped_rows : nat
}.
End ParseDiagnostics.

(** [len(row) <= max(config.part_col, config.qty_col)] *)
Definition row_too_short (config : MappingConfig.t) (row : list cell) : bool :=
  (Z.of_nat (length row) <=? Z.max (MappingConfig.part_col config)
                                   (MappingConfig.qty_col config))%Z.

(** The cell of an optional column: [None] when the column is not used
    or the row ends before it. *)
Definition optional_cell (row : list cell) (col : option Z)
  : result (option cell) :=
  match col with
  | Some c =>
    if (c <? Z.of_nat (length row))%Z then Some <$> py_index row c
    else Ok None
  | None => Ok None
  end.

(** One iteration of the loop of [parse_bom]: the record of the row, or
    nothing when the row is skipped; [row_number] is [row_index]. *)
Definition parse_bom_row (config : MappingConfig.t) (row_number : Z)
    (row : list cell) : result (option BOMItem.t) :=
  if is_empty_row row then Ok None
  else if row_too_short config row then Ok None
  else
    part_cell ← cell_at row (MappingConfig.part_col config);
    part_id ← clean_part_number part_cell;
    if str_eqb part_id [] then Ok None
    else
      qty_cell ← cell_at row (MappingConfig.qty_col config);
      qty ← safe_eval_expression qty_cell;
      match qty with
      | None => Ok None
      | Some qty =>
        if PrimFloat.leb qty 0%float then Ok None
        else
          substitute_cell ←
            optional_cell row (MappingConfig.substitute_col config);
          let substitutes :=
            match substitute_cell with
            | Some c => extract_substitute_ids c
            | None => []
            end in
          name_cell ← optional_cell row (MappingConfig.name_col config);
          let name :=
            match name_cell with
            | Some c => if cell_truthy c then strip (cell_str c) else []
            | None => []
            end in
          Ok (Some {| BOMItem.main_part_id := part_id;
                      BOMItem.quantity := qty;
                      BOMItem.substitute_ids := substitutes;
                      BOMItem.name := name;
                      BOMItem.row_index := row_number |})
      end.

(** [enumerate(raw_data[header_row_idx + 1:])], each row with its
    [row_index], [header_row_idx + 1 + row_idx + 1]. *)
Definition numbered_rows (raw_data : list (list cell)) (header_row : Z)
  : list (Z * list cell) :=
  imap (fun i row => (header_row + 1 + Z.of_nat i + 1, row)%Z)
       (py_slice_from raw_data (header_row + 1)).

(** The records of the rows that gave one, in order. *)
Definition kept {A} (outcomes : list (option A)) : list A :=
  omap id outcomes.

Definition diagnostics (file_type parse_mode : str) (header_row : Z)
    (total : nat) {A} (items : list A) (skipped : nat) : ParseDiagnostics.t :=
  {| ParseDiagnostics.file_type := file_type;
     ParseDiagnostics.header_row := header_row + 1;
     ParseDiagnostics.header_score := 0;
     ParseDiagnostics.parse_mode := parse_mode;
     ParseDiagnostics.total_rows := total;
     ParseDiagnostics.parsed_items := length items;
     ParseDiagnostics.skipped_rows := skipped |}.

Definition count_skipped {A} (outcomes : list (option A)) : nat :=
  length (filter (fun o => o = None) outcomes).

(** [parse_bom]: the items and the diagnostics (the data frame it also
    returns lists the same items). *)
Definition parse_bom (raw_data : list (list cell)) (config : MappingConfig.t)
  : result (list BOMItem.t * ParseDiagnostics.t) :=
  let header_row_idx := MappingConfig.header_row config in
  let data_rows := numbered_rows raw_data header_row_idx in
  outcomes ← mapM (fun '(n, row) => parse_bom_row config n row) data_rows;
  Ok (kept outcomes,
      diagnostics (u "BOM") ParseMode.STANDARD header_row_idx
        (length data_rows) (kept outcomes) (count_skipped outcomes)).

(** The checks a checklist row passes in both modes, from the short-row
    test on; [box] computes the label the record gets. *)
Definition parse_list_cells (config : MappingConfig.t) (row_number : Z)
    (row : list cell) (box : result str) : result (option ListItem.t) :=
  if row_too_short config row then Ok None
  else
    part_cell ← cell_at row (MappingConfig.part_col config);
    part_id ← clean_part_number part_cell;
    if str_eqb part_id [] then Ok None
    else
      qty_cell ← cell_at row (MappingConfig.qty_col config);
      qty ← safe_eval_expression qty_cell;
      match qty with
      | None => Ok None
      | Some qty =>
        box ← box;
        Ok (Some {| ListItem.part_id := part_id;
                    ListItem.quantity := qty;
                    ListItem.box_number := box;
                    ListItem.row_index := row_number |})
      end.

(** The box label of a row in the standard mode. *)
Definition standard_box (config : MappingConfig.t) (row : list cell)
  : result str :=
  box_cell ← optional_cell row (MappingConfig.box_col config);
  match box_cell with
  | Some c => normalize_box_number c
  | None => Ok []
  end.

(** One iteration of the loop of [_parse_standard]. *)
Definition parse_standard_row (config : MappingConfig.t) (row_number : Z)
    (row : list cell) : result (option ListItem.t) :=
  if is_empty_row row then Ok None
  else parse_list_cells config row_number row (standard_box config row).

(** [_parse_standard] *)
Definition parse_standard (raw_data : list (list cell))
    (config : MappingConfig.t) (file_label : str)
  : result (list ListItem.t * ParseDiagnostics.t) :=
  let header_row_idx := MappingConfig.header_row config in
  let data_rows := numbered_rows raw_data header_row_idx in
  outcomes ← mapM (fun '(n, row) => parse_standard_row config n row) data_rows;
  Ok (kept outcomes,
      diagnostics file_label ParseMode.STANDARD header_row_idx
        (length data_rows) (kept outcomes) (count_skipped outcomes)).

(** [' '.join(str(c) if c else '' for c in row)] *)
Definition row_text (row : list cell) : str :=
  join [32%N] (map (fun c => if cell_truthy c then cell_str c else []) row).

(** The box label a row announces, if it is a marker row. *)
Definition box_marker (row : list cell) : option str :=
  match row with
  | [] => None
  | _ => extract_box_number_from_text (row_text row) BOX_MARKER_PATTERNS
  end.

(** The state of the scan of [_parse_stream]. *)
Record stream_state := mk_stream_state {
  items : list ListItem.t;
  skipped : nat;
  current_box : str
}.

(** The body of the loop of [_parse_stream] on the row [row], whose
    [row_index] is [row_number]. *)
Definition parse_stream_row (config : MappingConfig.t) (st : stream_state)
    (row_number : Z) (row : list cell) : result stream_state :=
  let skip := mk_stream_state (items st) (S (skipped st)) (current_box st) in
  match row with
  | [] => Ok skip
  | _ =>
    match box_marker row with
    | Some box_match =>
      Ok (mk_stream_state (items st) (S (skipped st)) box_match)
    | None =>
      if is_empty_row row then Ok skip
      else
        item ← parse_list_cells config row_number row (Ok (current_box st));
        match item with
        | None => Ok skip
        | Some item =>
          Ok (mk_stream_state (items st ++ [item]) (skipped st)
                (current_box st))
        end
    end
  end.

(** One iteration of the loop of [_parse_stream]: [row = raw_data[row_idx]],
    then the body. *)
Definition parse_stream_step (config : MappingConfig.t)
    (raw_data : list (list cell)) (st : stream_state) (row_idx : Z)
  : result stream_state :=
  row ← py_index raw_data row_idx;
  parse_stream_row config st (row_idx + 1) row.

Fixpoint parse_stream_loop (config : MappingConfig.t)
    (raw_data : list (list cell)) (st : stream_state) (indices : list Z)
  : result stream_state :=
  match indices with
  | [] => Ok st
  | row_idx :: rest =>
    st' ← parse_stream_step config raw_data st row_idx;
    parse_stream_loop config raw_data st' rest
  end.

(** [range(start, stop)] *)
Definition py_range (start stop : Z) : list Z := seqZ start (stop - start).

(** [_parse_stream] *)
Definition parse_stream (raw_data : list (list cell))
    (config : MappingConfig.t) (file_label : str)
  : result (list ListItem.t * ParseDiagnostics.t) :=
  let header_row_idx := MappingConfig.header_row config in
  st ← parse_stream_loop config raw_data (mk_stream_state [] 0 [])
         (py_range (header_row_idx + 1) (Z.of_nat (length raw_data)));
  Ok (items st,
      diagnostics file_label ParseMode.STREAM header_row_idx
        (length raw_data) (items st) (skipped st)).

(** [parse_generic_list] *)
Definition parse_generic_list (raw_data : list (list cell))
    (config : MappingConfig.t) (file_label : str)
  : result (list ListItem.t * ParseDiagnostics.t) :=
  if MappingConfig.stream_parse config
  then parse_stream raw_data config file_label
  else parse_standard raw_data config file_label.

(** ** modules/utils.py: the header locator *)

Section HeaderLocator.

(** [str.lower()].  The locator lower-cases whole rows and keywords of any
    script, so the case mapping of the interpreter's Unicode database is
    a parameter here; [ascii_lower] is what it does on ASCII text. *)
Variable lower : str -> str.

(** The loop of [calculate_header_score]. *)
Fixpoint score_loop (row_text_lower : str) (keywords : list str)
    (matched_keywords : gset str) : nat :=
  match keywords with
  | [] => 0
  | keyword :: rest =>
    let kw_lower := lower keyword in
    if contains kw_lower row_text_lower
       && bool_decide (kw_lower ∉ matched_keywords)
    then S (score_loop row_text_lower rest ({[ kw_lower ]} ∪ matched_keywords))
    else score_loop row_text_lower rest matched_keywords
  end.

(** [calculate_header_score] *)
Definition calculate_header_score (row : list cell) (keywords : list str)
  : nat :=
  match row with
  | [] => 0
  | _ => score_loop (lower (row_text row)) keywords ∅
  end.

(** [cell is not None and str(cell).strip()] *)
Definition cell_non_empty (c : cell) : bool :=
  match c with
  | CNone => false
  | _ => negb (str_eqb (strip (cell_str c)) [])
  end.

Definition non_empty_cells (row : list cell) : nat :=
  length (List.filter cell_non_empty row).

(** A row the scan gives a score to: not empty, at least two non-empty
    cells. *)
Definition scored_row (row : list cell) : bool :=
  negb (non_empty_cells row <? 2)%nat.

(** The scan of [smart_find_header_row] over the rows, each with its
    index; [best] is the pair [best_row_idx], [best_score]. *)
Fixpoint header_scan (rows : list (nat * list cell)) (keywords : list str)
    (best : option nat * nat) : option nat * nat :=
  match rows with
  | [] => best
  | (row_idx, row) :: rest =>
    match row with
    | [] => header_scan rest keywords best
    | _ =>
      if (non_empty_cells row <? 2)%nat then header_scan rest keywords best
      else
        let score := calculate_header_score row keywords in
        if (snd best <? score)%nat
        then header_scan rest keywords (Some row_idx, score)
        else header_scan rest keywords best
    end
  end.

(** [smart_find_header_row] *)
Definition smart_find_header_row (data : list (list cell))
    (keywords : list str) (max_rows min_score : Z) : option nat * Z :=
  match data, keywords with
  | [], _ | _, [] => (None, 0%Z)
  | _, _ =>
    let search_rows := Z.min (Z.of_nat (length data)) max_rows in
    let best :=
      header_scan (imap (fun i row => (i, row))
                        (take (Z.to_nat search_rows) data))
                  keywords (None, 0%nat) in
    if (min_score <=? Z.of_nat (snd best))%Z
    then (fst best, Z.of_nat (snd best))
    else (None, 0%Z)
  end.

End HeaderLocator.

(** * Vocabulary of the properties *)

(** ** Chinese numerals

    The numerals below one thousand that are written with the digits
    一 to 九 and the magnitudes 十 and 百, and the numerals that start with
    a multiple of 千. *)

Inductive digit := D1 | D2 | D3 | D4 | D5 | D6 | D7 | D8 | D9.

Definition digit_value (d : digit) : Z :=
  match d with
  | D1 => 1 | D2 => 2 | D3 => 3 | D4 => 4 | D5 => 5
  | D6 => 6 | D7 => 7 | D8 => 8 | D9 => 9
  end.

Definition digit_text (d : digit) : str :=
  match d with
  | D1 => u "一" | D2 => u "二" | D3 => u "三" | D4 => u "四" | D5 => u "五"
  | D6 => u "六" | D7 => u "七" | D8 => u "八" | D9 => u "九"
  end.

Definition opt_digit_value (d : option digit) : Z :=
  match d with Some d => digit_value d | None => 0 end.

Definition opt_digit_text (d : option digit) : str :=
  match d with Some d => digit_text d | None => [] end.

(** [t十] and [t十u]: 10 t + u. *)
Inductive tens := Tens (t : digit) (units : option digit).

Definition tens_value (t : tens) : Z :=
  match t with Tens t units => 10 * digit_value t + opt_digit_value units end.

Definition tens_text (t : tens) : str :=
  match t with Tens t units => digit_text t ++ u "十" ++ opt_digit_text units end.

Inductive numeral :=
| NUnits (units : digit)                     (* 一 ... 九 *)
| NTeens (units : option digit)              (* 十, 十一 ... 十九 *)
| NTens (t : tens)                           (* 一十 ... 九十九 *)
| NHundreds (h : digit) (rest : option tens) (* h百, h百t十, h百t十u *).

Definition numeral_value (n : numeral) : Z :=
  match n with
  | NUnits units => digit_value units
  | NTeens units => 10 + opt_digit_value units
  | NTens t => tens_value t
  | NHundreds h rest =>
    100 * digit_value h + match rest with Some t => tens_value t | None => 0 end
  end.

Definition numeral_text (n : numeral) : str :=
  match n with
  | NUnits units => digit_text units
  | NTeens units => u "十" ++ opt_digit_text units
  | NTens t => tens_text t
  | NHundreds h rest =>
    digit_text h ++ u "百" ++ match rest with Some t => tens_text t | None => [] end
  end.

(** [k千] followed by nothing or by a numeral of hundreds. *)
Inductive thousands := Thousands (k : digit) (rest : option (digit * option tens)).

Definition thousands_value (n : thousands) : Z :=
  match n with
  | Thousands k rest =>
    1000 * digit_value k +
    match rest with
    | Some (h, r) => numeral_value (NHundreds h r)
    | None => 0
    end
  end.

Definition thousands_text (n : thousands) : str :=
  match n with
  | Thousands k rest =>
    digit_text k ++ u "千" ++
    match rest with
    | Some (h, r) => numeral_text (NHundreds h r)
    | None => []
    end
  end.

(** The text of a marker row that announces box [number]. *)
Definition marker_text (number : str) : str := u "第" ++ number ++ u "箱".

(** ** The reverse pass *)

(** The checklist items whose cleaned part id is [pid], in order. *)
Definition items_with_id (list_items : list ListItem.t) (pid : str)
  : list ListItem.t :=
  filter (fun i => clean_part_number_str (ListItem.part_id i) = pid) list_items.


(** The ids a BOM record brings: its cleaned main id and its cleaned
    substitute ids. *)
Definition bom_ids (b : BOMItem.t) : list str :=
  clean_part_number_str (BOMItem.main_part_id b)
    :: map clean_part_number_str (BOMItem.substitute_ids b).

(** [pid] appears somewhere in the BOM, as a main id or as a substitute. *)
Definition is_bom_id (bom_items : list BOMItem.t) (pid : str) : Prop :=
  exists b, b ∈ bom_items /\ pid ∈ bom_ids b.


(** ** Display *)

(** A record without what the result table does not show of it: the list
    [matched_substitutes]. *)
Definition shown (r : CompareResult.t) : CompareResult.t :=
  {| CompareResult.work_order := CompareResult.work_order r;
     CompareResult.part_id := CompareResult.part_id r;
     CompareResult.part_name := CompareResult.part_name r;
     CompareResult.bom_quantity := CompareResult.bom_quantity r;
     CompareResult.actual_quantity := CompareResult.actual_quantity r;
     CompareResult.difference := CompareResult.difference r;
     CompareResult.status := CompareResult.status r;
     CompareResult.box_sources := CompareResult.box_sources r;
     CompareResult.matched_substitutes := [];
     CompareResult.remark := CompareResult.remark r |}.

(** Two outcomes that agree up to a relation on their values. *)
Definition result_rel {A B} (R : A -> B -> Prop) (x : result A) (y : result B)
  : Prop :=
  match x, y with
  | Ok a, Ok b => R a b
  | Raise e1, Raise e2 => e1 = e2
  | Unmodelled, Unmodelled => True
  | _, _ => False
  end.


(** ** The forward pass *)

(** The checklist records a BOM record collects: those of its candidate
    ids, main id first. *)
Definition collected (bom_item : BOMItem.t)
    (part_lookup : gmap str (list ListItem.t)) : list ListItem.t :=
  concat (map (lookup_items part_lookup) (all_parts_of bom_item)).

(** [actual - bomQuantity] *)
Definition difference_of (bom_item : BOMItem.t)
    (part_lookup : gmap str (list ListItem.t)) : float :=
  PrimFloat.sub (py_sum (quantities_of (collected bom_item part_lookup)))
                (BOMItem.quantity bom_item).

(** The substitute ids of a BOM record that the checklist has. *)
Definition used_substitutes (bom_item : BOMItem.t)
    (part_lookup : gmap str (list ListItem.t)) : list str :=
  filter (fun pid => is_Some (part_lookup !! pid)) (substitutes_of bom_item).

(** The verdict of the classification rules, taken in their order. *)
Definition verdict (bom_item : BOMItem.t)
    (part_lookup : gmap str (list ListItem.t)) : str :=
  match collected bom_item part_lookup with
  | [] => JudgmentStatus.NG_MISSING
  | _ =>
    if within_tolerance (difference_of bom_item part_lookup) then
      match used_substitutes bom_item part_lookup with
      | [] => JudgmentStatus.OK
      | _ => JudgmentStatus.OK_WITH_SUB
      end
    else JudgmentStatus.NG_QTY_DIFF
  end.

(** ** Completeness *)




(** ** Listings *)

(** [l] lists the strings that satisfy [members] in ascending order of
    [le], each once: what a sorted listing of a set is. *)
Definition listing_of (le : relation str) (members : str -> Prop)
    (l : list str) : Prop :=
  Sorted le l /\ NoDup l /\ forall x, x ∈ l <-> members x.

(** The display string of a listing of boxes. *)
Definition box_display (listing : list str) : str :=
  match listing with
  | [] => u "-"
  | _ => join (u ", ") listing
  end.

(** The parts of the remark of a forward-pass record, for the listing of
    the substitutes that were used and the formatted difference. *)
Definition remark_parts (bom_item : BOMItem.t)
    (part_lookup : gmap str (list ListItem.t)) (listing : list str)
    (shown_difference : str) : list str :=
  match collected bom_item part_lookup with
  | [] => [u "清单中未找到该料号及其替代料"]
  | _ =>
    if within_tolerance (difference_of bom_item part_lookup) then
      match listing with
      | [] => []
      | _ => [u "使用替代料: " ++ join (u ", ") listing]
      end
    else
      ((if PrimFloat.ltb 0%float (difference_of bom_item part_lookup)
        then u "超量 +" else u "欠量 ") ++ shown_difference)
        :: match listing with
           | [] => []
           | _ => [u "含替代料: " ++ join (u ", ") listing]
           end
  end.

(** [row] is the row of the result table for the record [r], whose boxes
    are shown as [boxes]. *)
Definition row_shows (r : CompareResult.t) (boxes : str) (row : Row.t)
  : Prop :=
  Row.work_order row = or_dash (CompareResult.work_order r) /\
  Row.part_id row = CompareResult.part_id r /\
  Row.name row = or_dash (CompareResult.part_name r) /\
  format_number (CompareResult.bom_quantity r) = Ok (Row.bom_quantity row) /\
  format_number (CompareResult.actual_quantity r) = Ok (Row.actual row) /\
  format_number (CompareResult.difference r) = Ok (Row.difference row) /\
  Row.status row = CompareResult.status r /\
  Row.box_sources row = boxes /\
  Row.remark row = CompareResult.remark r.

(** ** The stream mode *)

(** The box in force after the rows [seen]: the label of the last marker
    row among them, the empty string when there is none. *)
Definition box_in_force (seen : list (list cell)) : str :=
  default [] (last (omap box_marker seen)).

(** What the stream mode makes of a row, given the rows scanned before
    it: nothing for a marker row and for an empty row, and for another
    row what the checks on its cells give, the record carrying the box in
    force. *)
Definition stream_outcome (config : MappingConfig.t) (seen : list (list cell))
    (row_number : Z) (row : list cell) : result (option ListItem.t) :=
  match box_marker row with
  | Some _ => Ok None
  | None =>
    if is_empty_row row then Ok None
    else parse_list_cells config row_number row (Ok (box_in_force seen))
  end.

(** The outcomes of the rows [rows], scanned after the rows [seen]. *)
Fixpoint stream_outcomes (config : MappingConfig.t) (seen : list (list cell))
    (rows : list (Z * list cell)) : result (list (option ListItem.t)) :=
  match rows with
  | [] => Ok []
  | (row_number, row) :: rest =>
    o ← stream_outcome config seen row_number row;
    os ← stream_outcomes config (seen ++ [row]) rest;
    Ok (o :: os)
  end.

(** The rows a scan from the index [start] reads, each with its
    [row_index]: [rows] lists [raw_data[i]] for [i] in
    [range(start, len(raw_data))]. *)
Definition scanned_rows (raw_data : list (list cell)) (start : Z)
    (rows : list (Z * list cell)) : Prop :=
  Forall2 (fun i nr => nr.1 = (i + 1)%Z /\ py_index raw_data i = Ok nr.2)
          (py_range start (Z.of_nat (length raw_data))) rows.

(** The rows the stream mode scans from the index [start], each with its
    [row_index]. *)
Definition stream_rows (raw_data : list (list cell)) (start : Z)
  : list (Z * list cell) :=
  omap (fun i => match py_index raw_data i with
                 | Ok row => Some ((i + 1)%Z, row)
                 | _ => None
                 end)
       (py_range start (Z.of_nat (length raw_data))).

(** ** The header locator *)

(** The lower-cased keywords that occur in the lower-cased text of a
    row: the distinct keywords the row matches, whatever their case. *)
Definition matched_keywords (lower : str -> str) (row : list cell)
    (keywords : list str) : gset str :=
  list_to_set
    (filter (fun kw => contains kw (lower (row_text row)) = true)
            (map lower keywords)).

(** The rows the locator scans: the first [max_rows] rows of the grid. *)
Definition header_candidates (data : list (list cell)) (max_rows : Z)
  : list (list cell) :=
  take (Z.to_nat max_rows) data.

(** ** The quantity evaluator *)




(** * Properties *)

(** ** Chinese numerals *)

Lemma chinese_to_arabic_units (d : digit) :
  chinese_to_arabic (numeral_text (NUnits d)) = Some (numeral_value (NUnits d)).
Proof. destruct d; vm_compute; reflexivity. Qed.

Lemma chinese_to_arabic_teens (units : option digit) :
  chinese_to_arabic (numeral_text (NTeens units))
  = Some (numeral_value (NTeens units)).
Proof. destruct units as [[]|]; vm_compute; reflexivity. Qed.

Lemma chinese_to_arabic_tens (t : tens) :
  chinese_to_arabic (numeral_text (NTens t)) = Some (numeral_value (NTens t)).
Proof. destruct t as [[] [[]|]]; vm_compute; reflexivity. Qed.

Lemma chinese_to_arabic_hundreds (h : digit) (rest : option tens) :
  chinese_to_arabic (numeral_text (NHundreds h rest))
  = Some (numeral_value (NHundreds h rest)).
Proof.
  destruct rest as [[t units]|].
  - destruct h, t, units as [[]|]; vm_compute; reflexivity.
  - destruct h; vm_compute; reflexivity.
Qed.

Lemma marker_label_of_numeral (n : numeral) :
  extract_box_number_from_text (marker_text (numeral_text n)) BOX_MARKER_PATTERNS
  = Some (box_label (str_of_int (numeral_value n))).
Proof.
  destruct n as [d|units|[t units]|h [[t units]|]].
  - destruct d; vm_compute; reflexivity.
  - destruct units as [[]|]; vm_compute; reflexivity.
  - destruct t, units as [[]|]; vm_compute; reflexivity.
  - destruct h, t, units as [[]|]; vm_compute; reflexivity.
  - destruct h; vm_compute; reflexivity.
Qed.

(** C9, as amended: [chinese_to_arabic] returns the value of every
    well-formed numeral written with the digits 一 to 九 and the
    magnitudes 十 and 百 (1 to 999), and a marker row 第...箱 written with
    such a numeral gets the label of that value. *)
Theorem C9_chinese_numerals_below_thousand (n : numeral) :
  chinese_to_arabic (numeral_text n) = Some (numeral_value n) /\
  extract_box_number_from_text (marker_text (numeral_text n)) BOX_MARKER_PATTERNS
  = Some (box_label (str_of_int (numeral_value n))).
Proof.
  split; [|apply marker_label_of_numeral].
  destruct n.
  - apply chinese_to_arabic_units.
  - apply chinese_to_arabic_teens.
  - apply chinese_to_arabic_tens.
  - apply chinese_to_arabic_hundreds.
Qed.

(** C9, as stated, fails on 千: 三千 denotes 3000 and is converted to
    1000, 一千二百 denotes 1200 and is converted to 200; a row 第三千箱 is
    not even a box marker. *)
Lemma C9_thousands_counterexample :
  thousands_text (Thousands D3 None) = u "三千" /\
  thousands_value (Thousands D3 None) = 3000%Z /\
  chinese_to_arabic (thousands_text (Thousands D3 None)) = Some 1000%Z /\
  thousands_value (Thousands D1 (Some (D2, None))) = 1200%Z /\
  chinese_to_arabic (thousands_text (Thousands D1 (Some (D2, None))))
  = Some 200%Z /\
  extract_box_number_from_text
    (marker_text (thousands_text (Thousands D3 None))) BOX_MARKER_PATTERNS
  = None.
Proof. vm_compute. repeat split; reflexivity. Qed.

(** ** Checklist items without a part id *)

Lemma build_part_lookup_blank (l1 l2 : list ListItem.t) (x : ListItem.t) :
  clean_part_number_str (ListItem.part_id x) = [] ->
  build_part_lookup (l1 ++ x :: l2) = build_part_lookup (l1 ++ l2).
Proof.
  intros Hx. unfold build_part_lookup. rewrite !fold_left_app.
  cbn [fold_left]. rewrite Hx. reflexivity.
Qed.

Lemma unmatched_groups_blank (l1 l2 : list ListItem.t) (x : ListItem.t)
    (bom_all : gset str) :
  clean_part_number_str (ListItem.part_id x) = [] ->
  unmatched_groups (l1 ++ x :: l2) bom_all = unmatched_groups (l1 ++ l2) bom_all.
Proof.
  intros Hx. unfold unmatched_groups. rewrite !fold_left_app.
  cbn [fold_left]. rewrite Hx. reflexivity.
Qed.

(** C10: a checklist item whose part id cleans to the empty string is
    left out of the lookup of the forward pass and of the groups of the
    reverse pass, so the engine gives the same rows and statistics with
    and without it. *)
Theorem C10_blank_part_id_is_ignored (it : set_order)
    (bom_items : list BOMItem.t) (l1 l2 : list ListItem.t) (x : ListItem.t)
    (list_label work_order : str) :
  clean_part_number_str (ListItem.part_id x) = [] ->
  build_part_lookup (l1 ++ x :: l2) = build_part_lookup (l1 ++ l2) /\
  (forall bom_all w,
     find_unmatched_list_items (l1 ++ x :: l2) bom_all w
     = find_unmatched_list_items (l1 ++ l2) bom_all w) /\
  compare_bom_and_list it bom_items (l1 ++ x :: l2) list_label work_order
  = compare_bom_and_list it bom_items (l1 ++ l2) list_label work_order.
Proof.
  intros Hx. split; [|split].
  - apply build_part_lookup_blank, Hx.
  - intros bom_all w. unfold find_unmatched_list_items.
    rewrite unmatched_groups_blank by exact Hx. reflexivity.
  - unfold compare_bom_and_list, all_results, bom_match_results, extra_results,
      find_unmatched_list_items.
    rewrite build_part_lookup_blank by exact Hx.
    rewrite unmatched_groups_blank by exact Hx. reflexivity.
Qed.

(** A checklist with a line whose part id is [.0.0]: the parser keeps it
    with the id [.0], which the engine cleans to nothing. *)
Lemma C10_witness :
  clean_part_number_str (u ".0") = [] /\
  compare_bom_and_list elements
    [BOMItem.mk (u "1001") 5 [] [] 2]
    ([ListItem.mk (u "1001") 5 [] 2] ++ ListItem.mk (u ".0") 7 (u "1") 3 :: [])
    (u "L") []
  = compare_bom_and_list elements
    [BOMItem.mk (u "1001") 5 [] [] 2]
    ([ListItem.mk (u "1001") 5 [] 2] ++ []) (u "L") [].
Proof.
  split; [reflexivity|].
  apply (C10_blank_part_id_is_ignored elements _ _ _ (ListItem.mk (u ".0") 7 (u "1") 3)).
  reflexivity.
Defined.

Lemma setdefault_append_keys {V} (d : list (str * list V)) k v :
  (setdefault_append d k v).*1 = if bool_decide (k ∈ d.*1) then d.*1 else d.*1 ++ [k].
Proof.
  induction d as [|[k' vs] d IH]; [reflexivity|].
  cbn [setdefault_append]. rewrite fmap_cons. cbn [fst].
  destruct (bool_decide (k' = k)) eqn:Hk.
  - apply bool_decide_eq_true in Hk as ->.
    rewrite bool_decide_eq_true_2 by apply list_elem_of_here. reflexivity.
  - apply bool_decide_eq_false in Hk.
    rewrite fmap_cons, IH. cbn [fst].
    destruct (bool_decide (k ∈ d.*1)) eqn:Hd.
    + apply bool_decide_eq_true in Hd.
      rewrite bool_decide_eq_true_2 by (by apply list_elem_of_further). reflexivity.
    + apply bool_decide_eq_false in Hd.
      rewrite bool_decide_eq_false_2; [reflexivity|].
      intros [?|?]%elem_of_cons; congruence.
Qed.
Lemma setdefault_append_elem {V} (d : list (str * list V)) k v k' vs' :
  NoDup d.*1 ->
  (k', vs') ∈ setdefault_append d k v <->
  (k' <> k /\ (k', vs') ∈ d) \/
  (k' = k /\ ((exists vs, (k, vs) ∈ d /\ vs' = vs ++ [v]) \/
              ((k ∉ d.*1) /\ vs' = [v]))).
Proof.
  induction d as [|[k0 vs0] d IH]; intros Hnd.
  - cbn [setdefault_append]. rewrite list_elem_of_singleton. split.
    + intros [= -> ->]. right. split; [done|]. right. split; [|done].
      apply not_elem_of_nil.
    + intros [[_ H]|[-> [(vs & H & _)|[_ ->]]]];
        [by apply elem_of_nil in H|by apply elem_of_nil in H|done].
  - rewrite fmap_cons in Hnd. cbn [fst] in Hnd.
    apply NoDup_cons in Hnd as [Hk0 Hnd]. specialize (IH Hnd).
    assert (Hfresh : forall vs, (k0, vs) ∉ d).
    { intros vs H. apply Hk0. apply list_elem_of_fmap. by exists (k0, vs). }
    cbn [setdefault_append].
    destruct (bool_decide (k0 = k)) eqn:Hk.
    + apply bool_decide_eq_true in Hk as ->.
      rewrite !elem_of_cons. split.
      * intros [[= -> ->]|H].
        -- right. split; [done|]. left. exists vs0. split; [by left|done].
        -- left. split; [|by right]. intros ->. by apply (Hfresh vs').
      * intros [[Hne [[= -> ->]|H]]|[-> [(vs & H & ->)|[Hnk _]]]].
        -- done.
        -- by right.
        -- apply elem_of_cons in H as [[= ->]|H]; [by left|].
           by apply Hfresh in H.
        -- exfalso. apply Hnk. rewrite fmap_cons. apply list_elem_of_here.
    + apply bool_decide_eq_false in Hk.
      rewrite !elem_of_cons, IH. rewrite fmap_cons. cbn [fst]. split.
      * intros [[= -> ->]|[[Hne H]|[-> [(vs & H & ->)|[Hnk ->]]]]].
        -- left. split; [done|by left].
        -- left. split; [done|by right].
        -- right. split; [done|]. left. exists vs. split; [by right|done].
        -- right. split; [done|]. right. split; [|done].
           intros [?|?]%elem_of_cons; congruence.
      * intros [[Hne [[= -> ->]|H]]|[-> [(vs & H & ->)|[Hnk ->]]]].
        -- by left.
        -- right. left. done.
        -- apply elem_of_cons in H as [[= <- <-]|H]; [done|].
           right. right. split; [done|]. left. by exists vs.
        -- right. right. split; [done|]. right. split; [|done].
           intros H. apply Hnk. by apply list_elem_of_further.
Qed.

Lemma setdefault_append_NoDup {V} (d : list (str * list V)) k v :
  NoDup d.*1 -> NoDup (setdefault_append d k v).*1.
Proof.
  intros Hnd. rewrite setdefault_append_keys.
  destruct (bool_decide (k ∈ d.*1)) eqn:Hk; [done|].
  apply bool_decide_eq_false in Hk.
  apply NoDup_app. split; [done|]. split; [|apply NoDup_singleton].
  intros x Hx ->%list_elem_of_singleton. done.
Qed.

Lemma items_with_id_snoc (l : list ListItem.t) x pid :
  items_with_id (l ++ [x]) pid =
  items_with_id l pid ++
  (if bool_decide (clean_part_number_str (ListItem.part_id x) = pid) then [x] else []).
Proof.
  unfold items_with_id. rewrite filter_app. f_equal.
  rewrite filter_cons, filter_nil. case_bool_decide; case_decide; done.
Qed.
(** The groups of the reverse pass: one entry for every cleaned id that is
    neither empty nor a BOM id, holding the items with that id. *)
Lemma unmatched_groups_spec (list_items : list ListItem.t) (bom_all : gset str) :
  NoDup (unmatched_groups list_items bom_all).*1 /\
  forall pid its, (pid, its) ∈ unmatched_groups list_items bom_all <->
    pid <> [] /\ (pid ∉ bom_all) /\ its = items_with_id list_items pid /\ its <> [].
Proof.
  unfold unmatched_groups.
  induction list_items as [|x l IH] using rev_ind.
  - cbn [fold_left]. split; [constructor|]. intros pid its. split.
    + intros H. by apply elem_of_nil in H.
    + intros (_ & _ & -> & H). done.
  - rewrite fold_left_app. cbn [fold_left].
    destruct IH as [Hnd IH].
    set (d := fold_left _ l []) in *.
    set (px := clean_part_number_str (ListItem.part_id x)).
    destruct (bool_decide (px <> []) && bool_decide (px ∉ bom_all)) eqn:Hok.
    + apply andb_true_iff in Hok as [H1%bool_decide_eq_true H2%bool_decide_eq_true].
      split; [by apply setdefault_append_NoDup|].
      intros pid its. rewrite setdefault_append_elem by done.
      rewrite items_with_id_snoc. fold px. split.
      * intros [[Hne H]|[-> [(vs & H & ->)|[Hnk ->]]]].
        -- apply IH in H as (? & ? & -> & ?).
           rewrite bool_decide_eq_false_2 by done. rewrite app_nil_r. done.
        -- apply IH in H as (? & ? & -> & ?).
           rewrite bool_decide_eq_true_2 by done.
           repeat split; try done. by destruct (items_with_id l px).
        -- rewrite bool_decide_eq_true_2 by done.
           destruct (items_with_id l px) as [|i0 r] eqn:Hi; [done|].
           exfalso. apply Hnk. apply list_elem_of_fmap.
           exists (px, i0 :: r). split; [done|]. apply IH. rewrite Hi. done.
      * intros (Hne & Hnb & -> & Hnil).
        destruct (bool_decide (px = pid)) eqn:Hp.
        -- apply bool_decide_eq_true in Hp. subst pid. right. split; [done|].
           destruct (items_with_id l px) as [|i0 r] eqn:Hi.
           ++ right. split; [|done]. intros (kv & Hk & Hin)%list_elem_of_fmap.
              destruct kv as [k vs]. cbn [fst] in Hk. subst k.
              apply IH in Hin as (_ & _ & -> & Hn). done.
           ++ left. exists (i0 :: r). split; [|done]. apply IH. rewrite Hi. done.
        -- apply bool_decide_eq_false in Hp. left. split; [done|].
           apply IH. rewrite app_nil_r in *. done.
    + split; [done|]. intros pid its. rewrite IH, items_with_id_snoc. fold px.
      destruct (bool_decide (px = pid)) eqn:Hp; [|by rewrite app_nil_r].
      apply bool_decide_eq_true in Hp. subst pid.
      apply andb_false_iff in Hok.
      split; intros (H1 & H2 & _); exfalso;
        destruct Hok as [H%bool_decide_eq_false|H%bool_decide_eq_false]; done.
Qed.

(** What the reverse pass emits. *)
Lemma find_unmatched_spec (list_items : list ListItem.t) (bom_all : gset str)
    (work_order : str) :
  let out := find_unmatched_list_items list_items bom_all work_order in
  NoDup (map CompareResult.part_id out) /\
  (forall pid, pid ∈ map CompareResult.part_id out <->
     pid <> [] /\ (pid ∉ bom_all) /\
     exists item, item ∈ list_items /\
                  clean_part_number_str (ListItem.part_id item) = pid) /\
  Forall (fun r =>
            CompareResult.status r = JudgmentStatus.NG_NOT_IN_BOM /\
            CompareResult.bom_quantity r = 0%float /\
            CompareResult.actual_quantity r
            = py_sum (quantities_of
                        (items_with_id list_items (CompareResult.part_id r))) /\
            CompareResult.difference r = CompareResult.actual_quantity r) out.
Proof.
  intros out. subst out.
  assert (Hids : map CompareResult.part_id
                   (find_unmatched_list_items list_items bom_all work_order)
                 = (unmatched_groups list_items bom_all).*1).
  { unfold find_unmatched_list_items.
    generalize (unmatched_groups list_items bom_all). intros g.
    induction g as [|[pid its] g IH]; [reflexivity|].
    cbn [map]. rewrite IH. reflexivity. }
  destruct (unmatched_groups_spec list_items bom_all) as [Hnd Hspec].
  unfold find_unmatched_list_items in *.
  set (g := unmatched_groups list_items bom_all) in *.
  split; [|split].
  - rewrite Hids. exact Hnd.
  - intros pid. rewrite Hids. rewrite list_elem_of_fmap. split.
    + intros ([k its] & -> & Hin). apply Hspec in Hin as (H1 & H2 & -> & H4).
      cbn [fst]. split; [done|]. split; [done|].
      destruct (items_with_id list_items k) as [|i r] eqn:Hi; [done|].
      exists i. assert (i ∈ items_with_id list_items k) as Hin.
      { rewrite Hi. left. }
      apply list_elem_of_filter in Hin as [? ?]. done.
    + intros (H1 & H2 & item & Hin & Hc).
      exists (pid, items_with_id list_items pid). split; [done|].
      apply Hspec. split; [done|]. split; [done|]. split; [done|].
      intros Hnil. assert (item ∈ items_with_id list_items pid) as Hi.
      { apply list_elem_of_filter. done. }
      rewrite Hnil in Hi. by apply elem_of_nil in Hi.
  - apply Forall_forall. intros r Hr.
    apply list_elem_of_In, in_map_iff in Hr as ([k its] & <- & Hin).
    apply list_elem_of_In, Hspec in Hin as (H1 & H2 & -> & H4).
    repeat split; reflexivity.
Qed.
Lemma add_substitutes_elem (subs : list str) (acc : gset str) (pid : str) :
  pid ∈ fold_left
          (fun bom_all s =>
             let sc := clean_part_number_str s in
             if bool_decide (sc <> []) then {[ sc ]} ∪ bom_all else bom_all)
          subs acc
  <-> pid ∈ acc \/ (pid <> [] /\ pid ∈ map clean_part_number_str subs).
Proof.
  revert acc. induction subs as [|s subs IH]; intros acc; cbn [fold_left map].
  - split; [by left|]. intros [H|[_ H]]; [done|by apply elem_of_nil in H].
  - rewrite IH. cbv zeta. rewrite elem_of_cons.
    destruct (bool_decide (clean_part_number_str s <> [])) eqn:Hs.
    + apply bool_decide_eq_true in Hs. rewrite elem_of_union, elem_of_singleton.
      split.
      * intros [[->|H]|[H1 H2]]; [right; split; [done|by left]|by left|].
        right. split; [done|by right].
      * intros [H|[H1 [->|H2]]]; [left; by right|left; by left|].
        right. done.
    + apply bool_decide_eq_false in Hs. split.
      * intros [H|[H1 H2]]; [by left|]. right. split; [done|by right].
      * intros [H|[H1 [->|H2]]]; [by left| |by right].
        exfalso. apply Hs. done.
Qed.

(** [bom_all] holds the non-empty ids of the BOM. *)
Lemma bom_all_parts_spec (bom_items : list BOMItem.t) (pid : str) :
  pid ∈ bom_all_parts bom_items <-> pid <> [] /\ is_bom_id bom_items pid.
Proof.
  unfold bom_all_parts, is_bom_id.
  induction bom_items as [|b l IH] using rev_ind.
  - cbn [fold_left]. split.
    + intros H. by apply not_elem_of_empty in H.
    + intros (_ & b & H & _). by apply elem_of_nil in H.
  - rewrite fold_left_app. cbn [fold_left]. cbv zeta.
    rewrite add_substitutes_elem.
    set (acc := fold_left _ l ∅) in *.
    set (mp := clean_part_number_str (BOMItem.main_part_id b)).
    assert (Hmain : pid ∈ (if bool_decide (mp <> []) then {[ mp ]} ∪ acc else acc)
                    <-> pid ∈ acc \/ (pid <> [] /\ pid = mp)).
    { destruct (bool_decide (mp <> [])) eqn:Hm.
      - apply bool_decide_eq_true in Hm.
        rewrite elem_of_union, elem_of_singleton. split.
        + intros [->|H]; [right|left]; done.
        + intros [H|[_ ->]]; [right|left]; done.
      - apply bool_decide_eq_false in Hm. split; [by left|].
        intros [H|[H ->]]; [done|]. exfalso. apply Hm. done. }
    rewrite Hmain, IH. unfold bom_ids. split.
    + intros [[(H1 & b0 & H2 & H3)|[H1 ->]]|[H1 H2]].
      * split; [done|]. exists b0. split; [|done].
        apply elem_of_app. by left.
      * split; [done|]. exists b. split; [|by left].
        apply elem_of_app. right. left.
      * split; [done|]. exists b. split; [|by right].
        apply elem_of_app. right. left.
    + intros (H1 & b0 & [H2|H2%list_elem_of_singleton]%elem_of_app & H3).
      * left. left. split; [done|]. by exists b0.
      * subst b0. apply elem_of_cons in H3 as [->|H3].
        -- left. right. done.
        -- right. done.
Qed.

(** C3, as amended: the reverse pass emits exactly one NG (BOM absent)
    record for every distinct cleaned part id of the checklist that is not
    empty and is not an id of the BOM (main or substitute); the record has
    BOM quantity 0, and its actual quantity and its difference are the sum
    of the quantities of the checklist records with that id. *)
Theorem C3_reverse_pass (bom_items : list BOMItem.t)
    (list_items : list ListItem.t) (work_order : str) :
  NoDup (map CompareResult.part_id
           (extra_results bom_items list_items work_order)) /\
  (forall pid,
     pid ∈ map CompareResult.part_id
             (extra_results bom_items list_items work_order) <->
     pid <> [] /\ ¬ is_bom_id bom_items pid /\
     exists item, item ∈ list_items /\
                  clean_part_number_str (ListItem.part_id item) = pid) /\
  Forall (fun r =>
            CompareResult.status r = JudgmentStatus.NG_NOT_IN_BOM /\
            CompareResult.bom_quantity r = 0%float /\
            CompareResult.actual_quantity r
            = py_sum (quantities_of
                        (items_with_id list_items (CompareResult.part_id r))) /\
            CompareResult.difference r = CompareResult.actual_quantity r)
         (extra_results bom_items list_items work_order).
Proof.
  unfold extra_results.
  destruct (find_unmatched_spec list_items (bom_all_parts bom_items) work_order)
    as (H1 & H2 & H3).
  split; [exact H1|]. split; [|exact H3].
  intros pid. rewrite H2, bom_all_parts_spec. split.
  - intros (Hne & Hnb & Hex). split; [done|]. split; [|done].
    intros Hb. apply Hnb. done.
  - intros (Hne & Hnb & Hex). split; [done|]. split; [|done].
    intros [_ Hb]. done.
Qed.

(** C3, as stated, fails on a checklist record whose part id cleans to
    the empty string (the parser keeps the id [.0] of a cell [.0.0]): its
    cleaned id is not in the BOM set, and the reverse pass emits nothing
    for it. *)
Lemma C3_blank_id_counterexample :
  clean_part_number (CStr (u ".0.0")) = Ok (u ".0") /\
  clean_part_number_str (u ".0") ∉ bom_all_parts [] /\
  extra_results [] [ListItem.mk (u ".0") 2 (u "A") 2] [] = [].
Proof.
  split; [reflexivity|]. split; [|reflexivity].
  apply not_elem_of_empty.
Qed.

(** ** Orders and sorting *)

Lemma str_lt_trichotomy (a b : str) : lexico a b \/ a = b \/ lexico b a.
Proof. destruct (trichotomyT lexico a b) as [[?|?]|?]; auto. Qed.

Lemma key_lt_trichotomy (a b : nat * str) : lexico a b \/ a = b \/ lexico b a.
Proof. destruct (trichotomyT lexico a b) as [[?|?]|?]; auto. Qed.

Global Instance str_le_total : Total str_le.
Proof.
  intros a b. unfold str_le.
  destruct (str_lt_trichotomy a b) as [H|[->|H]].
  - left. intros H'. exact (irreflexivity lexico a (transitivity H H')).
  - left. apply irreflexivity, _.
  - right. intros H'. exact (irreflexivity lexico a (transitivity H' H)).
Qed.

Global Instance str_le_trans : Transitive str_le.
Proof.
  intros a b c Hab Hbc Hca. unfold str_le in *.
  destruct (str_lt_trichotomy a b) as [H|[->|H]]; [|done|done].
  apply Hbc. exact (transitivity Hca H).
Qed.

Global Instance str_le_antisymm : AntiSymm (=) str_le.
Proof.
  intros a b Hab Hba. unfold str_le in *.
  destruct (str_lt_trichotomy a b) as [H|[->|H]]; done.
Qed.

Global Instance len_key_le_total : Total len_key_le.
Proof.
  intros a b. unfold len_key_le.
  destruct (key_lt_trichotomy (length a, a) (length b, b)) as [H|[H|H]].
  - left. intros H'.
    exact (irreflexivity lexico (length a, a) (transitivity H H')).
  - left. rewrite H. apply irreflexivity, _.
  - right. intros H'.
    exact (irreflexivity lexico (length a, a) (transitivity H' H)).
Qed.

Global Instance len_key_le_trans : Transitive len_key_le.
Proof.
  intros a b c Hab Hbc Hca. unfold len_key_le in *.
  destruct (key_lt_trichotomy (length a, a) (length b, b)) as [H|[H|H]];
    [|rewrite H in *; done|done].
  apply Hbc. exact (transitivity Hca H).
Qed.

Global Instance len_key_le_antisymm : AntiSymm (=) len_key_le.
Proof.
  intros a b Hab Hba. unfold len_key_le in *.
  destruct (key_lt_trichotomy (length a, a) (length b, b)) as [H|[H|H]];
    [done| |done].
  by injection H.
Qed.

(** Sorting forgets the order of its input. *)
Lemma sorted_permutation (l1 l2 : list str) :
  l1 ≡ₚ l2 -> sorted l1 = sorted l2.
Proof.
  intros Hp. unfold sorted.
  apply (Sorted_unique str_le); try apply Sorted_merge_sort; try apply _.
  rewrite !merge_sort_Permutation. exact Hp.
Qed.

Lemma sorted_by_len_permutation (l1 l2 : list str) :
  l1 ≡ₚ l2 -> sorted_by_len l1 = sorted_by_len l2.
Proof.
  intros Hp. unfold sorted_by_len.
  apply (Sorted_unique len_key_le); try apply Sorted_merge_sort; try apply _.
  rewrite !merge_sort_Permutation. exact Hp.
Qed.

Lemma iterates_agree (it1 it2 : set_order) (s : gset str) :
  iterates it1 -> iterates it2 -> it1 s ≡ₚ it2 s.
Proof. intros H1 H2. rewrite (H1 s), (H2 s). reflexivity. Qed.

Lemma merge_box_numbers_order (it1 it2 : set_order) (box_list : list str) :
  iterates it1 -> iterates it2 ->
  merge_box_numbers it1 box_list = merge_box_numbers it2 box_list.
Proof.
  intros H1 H2. unfold merge_box_numbers.
  rewrite (sorted_by_len_permutation _ _ (iterates_agree it1 it2 _ H1 H2)).
  reflexivity.
Qed.

(** ** The result monad *)

Lemma mapM_result_cons {A B} (f : A -> result B) (x : A) (l : list A) :
  mapM f (x :: l) =
  match f x with
  | Ok y =>
    match mapM f l with
    | Ok k => Ok (y :: k)
    | Raise e => Raise e
    | Unmodelled => Unmodelled
    end
  | Raise e => Raise e
  | Unmodelled => Unmodelled
  end.
Proof. reflexivity. Qed.

Lemma mapM_result_rel {A B C} (R : B -> C -> Prop)
    (f : A -> result B) (g : A -> result C) (l : list A) :
  (forall a, result_rel R (f a) (g a)) ->
  result_rel (Forall2 R) (mapM f l) (mapM g l).
Proof.
  intros Hfg. induction l as [|a l IH]; [constructor|].
  rewrite !mapM_result_cons. specialize (Hfg a).
  destruct (f a), (g a); try done; cbn in Hfg.
  destruct (mapM f l), (mapM g l); try done; cbn in IH |- *.
  by constructor.
Qed.

Lemma mapM_result_length {A B} (f : A -> result B) (l : list A) (k : list B) :
  mapM f l = Ok k -> length k = length l.
Proof.
  revert k. induction l as [|a l IH]; intros k.
  - intros [= <-]. reflexivity.
  - rewrite mapM_result_cons. destruct (f a); try done.
    destruct (mapM f l); try done. intros [= <-]. cbn. f_equal. by apply IH.
Qed.

Lemma mapM_result_Forall2 {A B} (R : A -> B -> Prop) (f : A -> result B)
    (l : list A) (k : list B) :
  (forall a b, f a = Ok b -> R a b) -> mapM f l = Ok k -> Forall2 R l k.
Proof.
  intros HR. revert k. induction l as [|a l IH]; intros k.
  - intros [= <-]. constructor.
  - rewrite mapM_result_cons. destruct (f a) as [b| |] eqn:Hb; try done.
    destruct (mapM f l) as [k'| |]; try done. intros [= <-].
    constructor; [by apply HR|by apply IH].
Qed.

(** ** Independence of the iteration order of sets *)

Lemma match_bom_item_order (it1 it2 : set_order) (b : BOMItem.t)
    (part_lookup : gmap str (list ListItem.t)) (work_order : str) :
  iterates it1 -> iterates it2 ->
  result_rel (fun m1 m2 =>
                shown (MatchResult.compare_result m1)
                = shown (MatchResult.compare_result m2) /\
                MatchResult.matched_part_ids m1 = MatchResult.matched_part_ids m2)
             (match_bom_item it1 b part_lookup work_order)
             (match_bom_item it2 b part_lookup work_order).
Proof.
  intros H1 H2. unfold match_bom_item.
  set (st := match_loop _ _ _ _).
  rewrite (sorted_permutation _ _ (iterates_agree it1 it2 (matched_sub_ids st) H1 H2)).
  match goal with
  | |- result_rel _ (mbind _ ?inner) _ => destruct inner as [[status remarks]| |]
  end; cbn [mbind result_bind result_rel]; [|reflexivity|exact I].
  split; reflexivity.
Qed.

Lemma row_of_order (it1 it2 : set_order) (r1 r2 : CompareResult.t) :
  iterates it1 -> iterates it2 -> shown r1 = shown r2 ->
  row_of it1 r1 = row_of it2 r2.
Proof.
  intros H1 H2 Hs. destruct r1, r2. unfold shown in Hs. cbn in Hs.
  injection Hs as -> -> -> -> -> -> -> -> ->.
  unfold row_of. cbn [CompareResult.bom_quantity CompareResult.actual_quantity
    CompareResult.difference CompareResult.work_order CompareResult.part_id
    CompareResult.part_name CompareResult.status CompareResult.box_sources
    CompareResult.remark].
  rewrite (merge_box_numbers_order it1 it2 _ H1 H2). reflexivity.
Qed.

Lemma mapM_row_of_order (it1 it2 : set_order) (l1 l2 : list CompareResult.t) :
  iterates it1 -> iterates it2 -> Forall2 (fun a b => shown a = shown b) l1 l2 ->
  mapM (row_of it1) l1 = mapM (row_of it2) l2.
Proof.
  intros H1 H2 HF. induction HF as [|a b l1 l2 Hab HF IH]; [reflexivity|].
  rewrite !mapM_result_cons, IH, (row_of_order it1 it2 a b H1 H2 Hab).
  reflexivity.
Qed.

Lemma shown_status (a b : CompareResult.t) :
  shown a = shown b -> CompareResult.status a = CompareResult.status b.
Proof. intros H. apply (f_equal CompareResult.status) in H. exact H. Qed.

Lemma count_shown (P : CompareResult.t -> Prop) (HP : forall r, Decision (P r))
    (l1 l2 : list CompareResult.t) :
  (forall a b, shown a = shown b -> P a <-> P b) ->
  Forall2 (fun a b => shown a = shown b) l1 l2 ->
  length (filter P l1) = length (filter P l2).
Proof.
  intros HPab HF. induction HF as [|a b l1 l2 Hab HF IH]; [reflexivity|].
  rewrite !filter_cons. specialize (HPab a b Hab).
  destruct (decide (P a)), (decide (P b)); cbn [length]; tauto || congruence.
Qed.

Lemma stats_of_shown (bom_items : list BOMItem.t)
    (l1 l2 : list CompareResult.t) (label : str) :
  Forall2 (fun a b => shown a = shown b) l1 l2 ->
  stats_of bom_items l1 label = stats_of bom_items l2 label.
Proof.
  intros HF.
  assert (Hlen : length l1 = length l2) by (eapply Forall2_length; eauto).
  unfold stats_of, count_status, CompareResult.is_pass, CompareResult.is_ng.
  rewrite Hlen.
  repeat match goal with
  | |- context [length (@filter _ _ _ ?P ?H l1)] =>
    rewrite (count_shown P H l1 l2)
      by (try exact HF; intros a b Hab; rewrite (shown_status a b Hab); reflexivity)
  end.
  reflexivity.
Qed.

(** The rows and the statistics of the engine do not depend on the
    order in which the interpreter iterates over its sets. *)
Lemma compare_bom_and_list_order (it1 it2 : set_order)
    (bom_items : list BOMItem.t) (list_items : list ListItem.t)
    (list_label work_order : str) :
  iterates it1 -> iterates it2 ->
  compare_bom_and_list it1 bom_items list_items list_label work_order
  = compare_bom_and_list it2 bom_items list_items list_label work_order.
Proof.
  intros H1 H2. unfold compare_bom_and_list, all_results, bom_match_results.
  pose proof (mapM_result_rel _
    (fun b => match_bom_item it1 b (build_part_lookup list_items) work_order)
    (fun b => match_bom_item it2 b (build_part_lookup list_items) work_order)
    bom_items
    (fun b => match_bom_item_order it1 it2 b _ work_order H1 H2)) as Hrel.
  destruct (mapM _ bom_items) as [m1|e1|], (mapM _ bom_items) as [m2|e2|];
    cbn [result_rel] in Hrel; try done; cbn [mbind result_bind];
    [|congruence].
  assert (HF : Forall2 (fun a b => shown a = shown b)
                 (map MatchResult.compare_result m1
                    ++ extra_results bom_items list_items work_order)
                 (map MatchResult.compare_result m2
                    ++ extra_results bom_items list_items work_order)).
  { apply Forall2_app.
    - clear -Hrel. induction Hrel as [|a b l1 l2 [Hab _] HF IH]; constructor; done.
    - apply Forall_Forall2_diag, Forall_forall. done. }
  rewrite (mapM_row_of_order it1 it2 _ _ H1 H2 HF).
  rewrite (stats_of_shown bom_items _ _ list_label HF). reflexivity.
Qed.

(** ** The forward pass *)



(** What the matching loop collects. *)
Lemma match_loop_spec (part_lookup : gmap str (list ListItem.t))
    (main_part : str) (all_parts : list str) (st : match_state) :
  matched_items (match_loop part_lookup main_part all_parts st)
  = matched_items st ++ concat (map (lookup_items part_lookup) all_parts) /\
  (forall pid,
     pid ∈ matched_list_ids (match_loop part_lookup main_part all_parts st) <->
     pid ∈ matched_list_ids st \/
     (pid ∈ all_parts /\ is_Some (part_lookup !! pid))) /\
  (forall pid,
     pid ∈ matched_sub_ids (match_loop part_lookup main_part all_parts st) <->
     pid ∈ matched_sub_ids st \/
     (pid ∈ all_parts /\ is_Some (part_lookup !! pid) /\ pid <> main_part)).
Proof.
  revert st. induction all_parts as [|p parts IH]; intros st.
  - cbn [match_loop map concat]. rewrite app_nil_r. split; [done|].
    split; intros pid; (split; [by left|]);
      intros [H|[H _]]; [done|by apply elem_of_nil in H|done|by apply elem_of_nil in H].
  - cbn [match_loop map concat].
    assert (Hl : lookup_items part_lookup p = default [] (part_lookup !! p))
      by reflexivity.
    rewrite Hl. clear Hl.
    destruct (part_lookup !! p) as [its|] eqn:Hp; cbn [default].
    + destruct (IH {| matched_items := matched_items st ++ its;
                      matched_sub_ids :=
                        if bool_decide (p <> main_part)
                        then {[ p ]} ∪ matched_sub_ids st else matched_sub_ids st;
                      matched_list_ids := {[ p ]} ∪ matched_list_ids st |})
        as (H1 & H2 & H3).
      cbn [matched_items matched_sub_ids matched_list_ids] in *.
      split; [rewrite H1, <- app_assoc; done|]. split; intros pid.
      * rewrite H2, elem_of_union, elem_of_singleton, elem_of_cons. split.
        -- intros [[->|H]|[H4 H5]]; [right; split; [by left|by rewrite Hp]|by left|].
           right. split; [by right|done].
        -- intros [H|[[->|H4] H5]]; [left; by right|left; by left|].
           right. done.
      * rewrite H3, elem_of_cons.
        destruct (bool_decide (p <> main_part)) eqn:Hm.
        -- apply bool_decide_eq_true in Hm.
           rewrite elem_of_union, elem_of_singleton. split.
           ++ intros [[->|H]|(H4 & H5 & H6)].
              ** right. split; [by left|]. split; [by rewrite Hp|done].
              ** by left.
              ** right. split; [by right|done].
           ++ intros [H|([->|H4] & H5 & H6)]; [left; by right|left; by left|].
              right. done.
        -- apply bool_decide_eq_false in Hm. split.
           ++ intros [H|(H4 & H5 & H6)]; [by left|]. right. split; [by right|done].
           ++ intros [H|([->|H4] & H5 & H6)]; [by left| |by right].
              exfalso. apply Hm. done.
    + destruct (IH st) as (H1 & H2 & H3). cbn [app].
      split; [done|]. split; intros pid.
      * rewrite H2, elem_of_cons. split.
        -- intros [H|[H4 H5]]; [by left|]. right. split; [by right|done].
        -- intros [H|[[->|H4] H5]]; [by left| |by right].
           rewrite Hp in H5. by destruct H5.
      * rewrite H3, elem_of_cons. split.
        -- intros [H|(H4 & H5 & H6)]; [by left|]. right. split; [by right|done].
        -- intros [H|([->|H4] & H5 & H6)]; [by left| |by right].
           rewrite Hp in H5. by destruct H5.
Qed.


Lemma match_state_of (it : set_order) (bom_item : BOMItem.t)
    (part_lookup : gmap str (list ListItem.t)) :
  let st := match_loop part_lookup
              (clean_part_number_str (BOMItem.main_part_id bom_item))
              (all_parts_of bom_item)
              {| matched_items := []; matched_sub_ids := ∅;
                 matched_list_ids := ∅ |} in
  matched_items st = collected bom_item part_lookup /\
  (forall pid, pid ∈ matched_list_ids st <->
               pid ∈ all_parts_of bom_item /\ is_Some (part_lookup !! pid)) /\
  (forall pid, pid ∈ matched_sub_ids st <->
               pid ∈ used_substitutes bom_item part_lookup).
Proof.
  intros st. subst st.
  destruct (match_loop_spec part_lookup
              (clean_part_number_str (BOMItem.main_part_id bom_item))
              (all_parts_of bom_item)
              {| matched_items := []; matched_sub_ids := ∅;
                 matched_list_ids := ∅ |}) as (H1 & H2 & H3).
  cbn [matched_items matched_sub_ids matched_list_ids] in *.
  split; [exact H1|]. split; intros pid.
  - rewrite H2. split; [|by right]. intros [H|H]; [|done].
    by apply not_elem_of_empty in H.
  - rewrite H3. unfold used_substitutes. rewrite list_elem_of_filter.
    unfold all_parts_of. rewrite elem_of_cons. split.
    + intros [H|([->|H4] & H5 & H6)]; [by apply not_elem_of_empty in H|done|done].
    + intros [H4 H5]. right. split; [by right|]. split; [done|].
      unfold substitutes_of in H5. apply list_elem_of_filter in H5 as [[_ H5] _].
      done.
Qed.


(** The examples of the classification: the tolerance and the precedence
    of substitutes. *)
Lemma forward_pass_examples :
  let status_of bom items :=
    match match_bom_item elements bom (build_part_lookup items) [] with
    | Ok mr => Some (CompareResult.status (MatchResult.compare_result mr),
                     CompareResult.remark (MatchResult.compare_result mr))
    | _ => None
    end in
  status_of (BOMItem.mk (u "1001") 10 [] [] 2)
            [ListItem.mk (u "1001") 10.0009 [] 2]
  = Some (JudgmentStatus.OK, []) /\
  status_of (BOMItem.mk (u "1001") 10 [] [] 2)
            [ListItem.mk (u "1001") 10.002 [] 2]
  = Some (JudgmentStatus.NG_QTY_DIFF, u "超量 +0.00") /\
  status_of (BOMItem.mk (u "1001") 5 [u "2002"] [] 2)
            [ListItem.mk (u "2002") 5 [] 2]
  = Some (JudgmentStatus.OK_WITH_SUB, u "使用替代料: 2002") /\
  status_of (BOMItem.mk (u "1001") 5 [u "2002"] [] 2)
            [ListItem.mk (u "1001") 3 [] 2; ListItem.mk (u "2002") 2 [] 3]
  = Some (JudgmentStatus.OK_WITH_SUB, u "使用替代料: 2002") /\
  status_of (BOMItem.mk (u "3003") 4 [] [] 2)
            [ListItem.mk (u "1001") 3 [] 2]
  = Some (JudgmentStatus.NG_MISSING, u "清单中未找到该料号及其替代料").
Proof. vm_compute. repeat split; reflexivity. Qed.

(** C1 on a quantity the code can receive: a checklist cell [inf] is read
    as the float infinity, the difference is infinite, the rule that
    applies is the last one, NG (quantity difference), and the call
    raises [OverflowError] while it formats the remark. *)
Lemma C1_infinite_difference_raises :
  (fst <$> parse_generic_list
     [[CStr (u "料号"); CStr (u "数量")]; [CStr (u "1001"); CStr (u "inf")]]
     (MappingConfig.mk 0 0 1 None None None false) (u "L"))
  = Ok [ListItem.mk (u "1001") infinity [] 2] /\
  verdict (BOMItem.mk (u "1001") 5 [] [] 2)
          (build_part_lookup [ListItem.mk (u "1001") infinity [] 2])
  = JudgmentStatus.NG_QTY_DIFF /\
  match_bom_item elements (BOMItem.mk (u "1001") 5 [] [] 2)
    (build_part_lookup [ListItem.mk (u "1001") infinity [] 2]) []
  = Raise OverflowError /\
  compare_bom_and_list elements [BOMItem.mk (u "1001") 5 [] [] 2]
    [ListItem.mk (u "1001") infinity [] 2] (u "L") []
  = Raise OverflowError.
Proof. vm_compute. repeat split; reflexivity. Qed.

(** ** Sorted listings and repeated runs *)

Lemma iterates_elem (it : set_order) (s : gset str) (x : str) :
  iterates it -> x ∈ it s <-> x ∈ s.
Proof. intros H. rewrite (H s). apply elem_of_elements. Qed.

Lemma iterates_NoDup (it : set_order) (s : gset str) :
  iterates it -> NoDup (it s).
Proof. intros H. rewrite (H s). apply NoDup_elements. Qed.

(** Sorting the iteration of a set gives its listing. *)
Lemma sorted_listing (it : set_order) (s : gset str) :
  iterates it -> listing_of str_le (fun x => x ∈ s) (sorted (it s)).
Proof.
  intros H. unfold listing_of, sorted. split; [apply Sorted_merge_sort, _|].
  split.
  - rewrite merge_sort_Permutation. by apply iterates_NoDup.
  - intros x. rewrite merge_sort_Permutation. by apply iterates_elem.
Qed.

Lemma sorted_by_len_listing (it : set_order) (s : gset str) :
  iterates it -> listing_of len_key_le (fun x => x ∈ s) (sorted_by_len (it s)).
Proof.
  intros H. unfold listing_of, sorted_by_len.
  split; [apply Sorted_merge_sort, _|]. split.
  - rewrite merge_sort_Permutation. by apply iterates_NoDup.
  - intros x. rewrite merge_sort_Permutation. by apply iterates_elem.
Qed.

(** [merge_box_numbers] joins the listing of the distinct non-empty labels,
    sorted by length and then by code points. *)
Lemma merge_box_numbers_listing (it : set_order) (box_list : list str) :
  iterates it ->
  exists listing,
    listing_of len_key_le (fun b => b <> [] /\ b ∈ box_list) listing /\
    merge_box_numbers it box_list = box_display listing.
Proof.
  intros H.
  set (s := list_to_set (filter (fun b => b <> []) box_list) : gset str).
  exists (sorted_by_len (it s)).
  destruct (sorted_by_len_listing it s H) as (Hs & Hnd & Hmem).
  assert (Hmem' : forall x, x ∈ sorted_by_len (it s) <-> x <> [] /\ x ∈ box_list).
  { intros x. rewrite Hmem. unfold s.
    rewrite elem_of_list_to_set, list_elem_of_filter. reflexivity. }
  split; [split; [exact Hs|split; [exact Hnd|exact Hmem']]|].
  unfold merge_box_numbers, box_display. fold s. destruct box_list as [|b0 rest]; [|reflexivity].
  destruct (sorted_by_len (it s)) as [|x l]; [reflexivity|].
  exfalso. destruct (proj1 (Hmem' x)) as [_ Hx]; [left|]. by apply elem_of_nil in Hx.
Qed.

Lemma Ok_inj {A} (a b : A) : Ok a = Ok b -> a = b.
Proof. intros H. by injection H. Qed.

(** The remark and the boxes of a forward-pass record: the substitutes
    are listed in ascending order of their code points. *)
Lemma match_bom_item_listing (it : set_order) (bom_item : BOMItem.t)
    (part_lookup : gmap str (list ListItem.t)) (work_order : str)
    (mr : MatchResult.t) :
  iterates it ->
  match_bom_item it bom_item part_lookup work_order = Ok mr ->
  exists listing shown_difference,
    listing_of str_le (fun p => p ∈ used_substitutes bom_item part_lookup)
               listing /\
    (verdict bom_item part_lookup = JudgmentStatus.NG_QTY_DIFF ->
     format_number (difference_of bom_item part_lookup) = Ok shown_difference) /\
    CompareResult.remark (MatchResult.compare_result mr)
    = join (u "; ") (remark_parts bom_item part_lookup listing shown_difference) /\
    CompareResult.box_sources (MatchResult.compare_result mr)
    = boxes_of (collected bom_item part_lookup).
Proof.
  intros Hit. unfold match_bom_item.
  destruct (match_state_of it bom_item part_lookup) as (H1 & _ & H3).
  cbv zeta in H1, H3.
  set (st := match_loop _ _ _ _) in *.
  destruct (sorted_listing it (matched_sub_ids st) Hit) as (Hs & Hnd & Hmem).
  set (listing := sorted (it (matched_sub_ids st))) in *.
  assert (Hsubs : bool_decide (matched_sub_ids st <> ∅)
                  = match listing with [] => false | _ => true end).
  { destruct listing as [|p r] eqn:Hl.
    - apply bool_decide_eq_false. intros H. apply H.
      apply set_eq. intros pid. rewrite <- Hmem, elem_of_nil.
      split; [done|]. intros H'. by apply not_elem_of_empty in H'.
    - apply bool_decide_eq_true. intros H.
      assert (p ∈ matched_sub_ids st) as Hp by (apply Hmem; left).
      rewrite H in Hp. by apply not_elem_of_empty in Hp. }
  rewrite Hsubs, H1. unfold remark_parts, verdict.
  set (diff := difference_of bom_item part_lookup).
  change (PrimFloat.sub (py_sum (quantities_of (collected bom_item part_lookup)))
            (BOMItem.quantity bom_item)) with diff.
  assert (HL : listing_of str_le
                 (fun p => p ∈ used_substitutes bom_item part_lookup) listing).
  { split; [exact Hs|]. split; [exact Hnd|]. intros x. rewrite Hmem. apply H3. }
  clearbody listing diff. clear Hs Hnd Hmem Hsubs H1 H3. 
  destruct (collected bom_item part_lookup) as [|i0 rest].
  - cbn [mbind result_bind]. intros <-%Ok_inj. exists listing, [].
    split; [exact HL|]. split; [intros H; discriminate H|].
    cbn [MatchResult.compare_result CompareResult.remark CompareResult.box_sources].
    split; reflexivity.
  - destruct (within_tolerance diff) eqn:Htol.
    + destruct listing as [|p r]; cbn [mbind result_bind]; intros <-%Ok_inj;
        [exists [], []|exists (p :: r), []];
        (split; [exact HL|]);
        (split; [generalize (used_substitutes bom_item part_lookup);
                 intros [|? ?] H; discriminate H|]);
        cbn [MatchResult.compare_result CompareResult.remark CompareResult.box_sources];
        split; reflexivity.
    + destruct (format_number diff) as [shown_diff| |] eqn:Hf;
        cbn [mbind result_bind]; try done.
      intros <-%Ok_inj. exists listing, shown_diff.
      split; [exact HL|]. split; [intros _; reflexivity|].
      cbn [MatchResult.compare_result CompareResult.remark CompareResult.box_sources].
      destruct listing; split; reflexivity.
Qed.

(** The engine formats the records of the two passes, in their order: the
    forward-pass records of the BOM lines, then the reverse-pass
    records. *)
Lemma compare_bom_and_list_rows (it : set_order) (bom_items : list BOMItem.t)
    (list_items : list ListItem.t) (list_label work_order : str)
    (rows : list Row.t) (stats : Stats.t) :
  compare_bom_and_list it bom_items list_items list_label work_order
  = Ok (rows, stats) ->
  exists mrs,
    Forall2 (fun b mr =>
               match_bom_item it b (build_part_lookup list_items) work_order
               = Ok mr) bom_items mrs /\
    let all_res := map MatchResult.compare_result mrs
                     ++ extra_results bom_items list_items work_order in
    stats = stats_of bom_items all_res list_label /\
    Forall2 (fun r row =>
               row_shows r (merge_box_numbers it (CompareResult.box_sources r))
                         row)
            all_res rows.
Proof.
  unfold compare_bom_and_list, all_results, bom_match_results.
  destruct (mapM _ bom_items) as [mrs| |] eqn:Hmrs;
    cbn [mbind result_bind]; try done.
  destruct (mapM (row_of it) _) as [rows'| |] eqn:Hrows;
    cbn [mbind result_bind]; try done.
  intros H%Ok_inj. exists mrs. split.
  { apply (mapM_result_Forall2 _ _ _ _ (fun a b H => H) Hmrs). }
  cbv zeta. split; [congruence|].
  replace rows with rows' by congruence.
  apply (mapM_result_Forall2 _ (row_of it)); [|exact Hrows].
  intros r row. unfold row_of, row_shows.
  destruct (format_number (CompareResult.bom_quantity r)); cbn [mbind result_bind];
    try done.
  destruct (format_number (CompareResult.actual_quantity r));
    cbn [mbind result_bind]; try done.
  destruct (format_number (CompareResult.difference r));
    cbn [mbind result_bind]; try done.
  intros <-%Ok_inj. repeat split; reflexivity.
Qed.

(** C4: two runs of the engine on the same records give byte-identical
    output, rows in the same order with the same display strings and the
    same statistics, whatever the order in which the interpreter iterates
    over its sets.  The listings are sorted before they are joined: the
    boxes of a row are the distinct non-empty labels of the record in
    ascending order of (length, text), joined with a comma, and the
    substitutes named in a remark are the substitutes the checklist has,
    in ascending order, joined with a comma.  The rows show the records of
    the two passes in their order, the boxes merged and the remark
    unchanged. *)
Theorem C4_sorted_listings_deterministic_output (it1 it2 : set_order)
    (bom_items : list BOMItem.t) (list_items : list ListItem.t)
    (list_label work_order : str) :
  iterates it1 -> iterates it2 ->
  compare_bom_and_list it1 bom_items list_items list_label work_order
  = compare_bom_and_list it2 bom_items list_items list_label work_order /\
  (forall box_list : list str,
     exists listing,
       listing_of len_key_le (fun b => b <> [] /\ b ∈ box_list) listing /\
       merge_box_numbers it1 box_list = box_display listing) /\
  (forall (bom_item : BOMItem.t) (part_lookup : gmap str (list ListItem.t))
          (mr : MatchResult.t),
     match_bom_item it1 bom_item part_lookup work_order = Ok mr ->
     exists listing shown_difference,
       listing_of str_le (fun p => p ∈ used_substitutes bom_item part_lookup)
                  listing /\
       (verdict bom_item part_lookup = JudgmentStatus.NG_QTY_DIFF ->
        format_number (difference_of bom_item part_lookup)
        = Ok shown_difference) /\
       CompareResult.remark (MatchResult.compare_result mr)
       = join (u "; ")
              (remark_parts bom_item part_lookup listing shown_difference) /\
       CompareResult.box_sources (MatchResult.compare_result mr)
       = boxes_of (collected bom_item part_lookup)) /\
  (forall (rows : list Row.t) (stats : Stats.t),
     compare_bom_and_list it1 bom_items list_items list_label work_order
     = Ok (rows, stats) ->
     exists mrs,
       Forall2 (fun b mr =>
                  match_bom_item it1 b (build_part_lookup list_items) work_order
                  = Ok mr) bom_items mrs /\
       let all_res := map MatchResult.compare_result mrs
                        ++ extra_results bom_items list_items work_order in
       stats = stats_of bom_items all_res list_label /\
       Forall2 (fun r row =>
                  exists listing,
                    listing_of len_key_le
                      (fun b => b <> [] /\ b ∈ CompareResult.box_sources r)
                      listing /\
                    row_shows r (box_display listing) row)
               all_res rows).
Proof.
  intros H1 H2. split; [by apply compare_bom_and_list_order|].
  split; [intros box_list; by apply merge_box_numbers_listing|].
  split; [intros b lk mr; by apply match_bom_item_listing|].
  intros rows stats Hrun.
  destruct (compare_bom_and_list_rows _ _ _ _ _ _ _ Hrun) as (mrs & Hm & Hr).
  cbv zeta in Hr. destruct Hr as [Hs Hr].
  exists mrs. split; [exact Hm|]. cbv zeta. split; [exact Hs|].
  eapply Forall2_impl; [exact Hr|]. intros r row Hrow.
  destruct (merge_box_numbers_listing it1 (CompareResult.box_sources r) H1)
    as (listing & HL & Heq).
  exists listing. split; [exact HL|]. rewrite <- Heq. exact Hrow.
Qed.

(** Two iteration orders, one the reverse of the other, on a BOM line
    with two matched substitutes, and the boxes of one row. *)
Lemma C4_witness :
  iterates elements /\ iterates (fun s => reverse (elements s)) /\
  compare_bom_and_list elements
    [BOMItem.mk (u "1001") 5 [u "2002"; u "3003"] [] 2]
    [ListItem.mk (u "3003") 2 (u "B2") 2; ListItem.mk (u "2002") 3 (u "B1") 3]
    (u "L") []
  = compare_bom_and_list (fun s => reverse (elements s))
    [BOMItem.mk (u "1001") 5 [u "2002"; u "3003"] [] 2]
    [ListItem.mk (u "3003") 2 (u "B2") 2; ListItem.mk (u "2002") 3 (u "B1") 3]
    (u "L") [] /\
  exists listing,
    listing_of len_key_le
      (fun b => b <> [] /\ b ∈ [u "B10"; u "B2"; []; u "B2"; u "A1"]) listing /\
    merge_box_numbers elements [u "B10"; u "B2"; []; u "B2"; u "A1"]
    = box_display listing.
Proof.
  assert (H1 : iterates elements) by (intros s; reflexivity).
  assert (H2 : iterates (fun s => reverse (elements s)))
    by (intros s; apply reverse_Permutation).
  destruct (C4_sorted_listings_deterministic_output
              elements (fun s => reverse (elements s))
              [BOMItem.mk (u "1001") 5 [u "2002"; u "3003"] [] 2]
              [ListItem.mk (u "3003") 2 (u "B2") 2;
               ListItem.mk (u "2002") 3 (u "B1") 3]
              (u "L") [] H1 H2) as (Ha & Hb & _).
  split; [exact H1|]. split; [exact H2|]. split; [exact Ha|]. exact (Hb _).
Defined.

(** The listings on examples, under two iteration orders: boxes by
    length and then by text, substitutes by text. *)
Lemma sorted_listings_examples :
  let backwards : set_order := fun s => reverse (elements s) in
  let boxes := [u "B10"; u "B2"; []; u "B2"; u "A1"] in
  let bom := [BOMItem.mk (u "1001") 5 [u "3003"; u "2002"] [] 2] in
  let items := [ListItem.mk (u "3003") 2 (u "B2") 2;
                ListItem.mk (u "2002") 3 (u "B10") 3] in
  let shown it :=
    match compare_bom_and_list it bom items (u "L") [] with
    | Ok (rows, _) => map (fun row => (Row.box_sources row, Row.remark row)) rows
    | _ => []
    end in
  merge_box_numbers elements boxes = u "A1, B2, B10" /\
  merge_box_numbers backwards boxes = u "A1, B2, B10" /\
  merge_box_numbers elements [[]; []] = u "-" /\
  shown elements = [(u "B2, B10", u "使用替代料: 2002, 3003")] /\
  shown backwards = [(u "B2, B10", u "使用替代料: 2002, 3003")].
Proof. vm_compute. repeat split; reflexivity. Qed.

(** ** Completeness of the output *)


Lemma Forall2_elem_r {A B} (R : A -> B -> Prop) (l : list A) (k : list B)
    (y : B) :
  Forall2 R l k -> y ∈ k -> exists x, x ∈ l /\ R x y.
Proof.
  intros HF. induction HF as [|a b l k Hab HF IH]; intros Hy.
  - by apply elem_of_nil in Hy.
  - apply elem_of_cons in Hy as [->|Hy].
    + exists a. split; [left|done].
    + destruct (IH Hy) as (x & Hx & HR). exists x. split; [by right|done].
Qed.











(** ** The quantity filters of the parsers *)

Lemma Ok_pair_inj {A B} (a c : A) (b d : B) :
  Ok (a, b) = Ok (c, d) -> a = c /\ b = d.
Proof.
  intros H%Ok_inj. split; [exact (f_equal fst H)|exact (f_equal snd H)].
Qed.

Lemma kept_count {A} (outcomes : list (option A)) :
  length (kept outcomes) + count_skipped outcomes = length outcomes.
Proof.
  unfold kept, count_skipped.
  induction outcomes as [|[a|] l IH]; [reflexivity| |].
  - rewrite filter_cons_False by done. cbn [omap list_omap id length].
    cbn [omap list_omap id length] in IH. lia.
  - rewrite filter_cons_True by done. cbn [omap list_omap id length].
    cbn [omap list_omap id length] in IH. lia.
Qed.

Lemma kept_elem {A} (outcomes : list (option A)) (a : A) :
  a ∈ kept outcomes <-> Some a ∈ outcomes.
Proof.
  unfold kept. rewrite list_elem_of_omap. split.
  - intros ([x|] & Hx & Hid); [|done]. cbn in Hid. by injection Hid as ->.
  - intros H. exists (Some a). done.
Qed.

(** A row of the BOM gives a record only if its quantity evaluates to a
    number that is not [<= 0]. *)
Lemma parse_bom_row_quantity (config : MappingConfig.t) (row_number : Z)
    (row : list cell) (item : BOMItem.t) :
  parse_bom_row config row_number row = Ok (Some item) ->
  exists qty_cell,
    cell_at row (MappingConfig.qty_col config) = Ok qty_cell /\
    safe_eval_expression qty_cell = Ok (Some (BOMItem.quantity item)) /\
    PrimFloat.leb (BOMItem.quantity item) 0%float = false.
Proof.
  unfold parse_bom_row.
  destruct (is_empty_row row); [done|].
  destruct (row_too_short config row); [done|].
  destruct (cell_at row (MappingConfig.part_col config)) as [pc| |];
    cbn [mbind result_bind]; try done.
  destruct (clean_part_number pc) as [pid| |]; cbn [mbind result_bind]; try done.
  destruct (str_eqb pid []); [done|].
  destruct (cell_at row (MappingConfig.qty_col config)) as [qc| |];
    cbn [mbind result_bind]; try done.
  destruct (safe_eval_expression qc) as [[q|]| |] eqn:Hev;
    cbn [mbind result_bind]; try done.
  destruct (PrimFloat.leb q 0%float) eqn:Hq; [done|].
  destruct (optional_cell row (MappingConfig.substitute_col config));
    cbn [mbind result_bind]; try done.
  destruct (optional_cell row (MappingConfig.name_col config));
    cbn [mbind result_bind]; try done.
  intros H%Ok_inj. injection H as <-. cbn [BOMItem.quantity].
  exists qc. done.
Qed.

(** What the two parsers do with the quantity of a row that passed the
    checks before it. *)
Lemma parse_rows_on_quantity (config : MappingConfig.t) (row_number : Z)
    (row : list cell) (part_cell qty_cell : cell) (part_id : str) :
  is_empty_row row = false ->
  row_too_short config row = false ->
  cell_at row (MappingConfig.part_col config) = Ok part_cell ->
  clean_part_number part_cell = Ok part_id ->
  part_id <> [] ->
  cell_at row (MappingConfig.qty_col config) = Ok qty_cell ->
  match safe_eval_expression qty_cell with
  | Ok (Some qty) =>
    parse_standard_row config row_number row
    = (box ← standard_box config row;
       Ok (Some (ListItem.mk part_id qty box row_number))) /\
    (PrimFloat.leb qty 0%float = true ->
     parse_bom_row config row_number row = Ok None) /\
    (PrimFloat.leb qty 0%float = false ->
     forall substitute_cell name_cell,
       optional_cell row (MappingConfig.substitute_col config)
       = Ok substitute_cell ->
       optional_cell row (MappingConfig.name_col config) = Ok name_cell ->
       exists item,
         parse_bom_row config row_number row = Ok (Some item) /\
         BOMItem.main_part_id item = part_id /\
         BOMItem.quantity item = qty /\
         BOMItem.row_index item = row_number)
  | Ok None =>
    parse_standard_row config row_number row = Ok None /\
    parse_bom_row config row_number row = Ok None
  | Raise e =>
    parse_standard_row config row_number row = Raise e /\
    parse_bom_row config row_number row = Raise e
  | Unmodelled =>
    parse_standard_row config row_number row = Unmodelled /\
    parse_bom_row config row_number row = Unmodelled
  end.
Proof.
  intros He Hs Hpc Hpid Hne Hqc.
  unfold parse_standard_row, parse_list_cells, parse_bom_row.
  rewrite He, Hs, Hpc. cbn [mbind result_bind]. rewrite Hpid.
  cbn [mbind result_bind].
  assert (str_eqb part_id [] = false) as ->.
  { destruct (str_eqb part_id []) eqn:H; [|done].
    exfalso. apply Hne. revert H. unfold str_eqb.
    destruct part_id; [done|]. cbn. done. }
  rewrite Hqc. cbn [mbind result_bind].
  destruct (safe_eval_expression qty_cell) as [[q|]| |];
    cbn [mbind result_bind]; try done.
  split; [reflexivity|]. split.
  - intros ->. reflexivity.
  - intros -> sc nc -> ->. cbn [mbind result_bind].
    eexists. split; [reflexivity|]. done.
Qed.

Lemma parse_rows_outcomes {A} (f : Z -> list cell -> result (option A))
    (rows : list (Z * list cell)) (outcomes : list (option A)) :
  mapM (fun '(n, row) => f n row) rows = Ok outcomes ->
  Forall2 (fun nr o => f nr.1 nr.2 = Ok o) rows outcomes /\
  length (kept outcomes) + count_skipped outcomes = length rows.
Proof.
  intros Hm. split.
  - apply (mapM_result_Forall2 _ (fun '(n, row) => f n row)); [|exact Hm].
    intros [n row] o H. exact H.
  - rewrite kept_count. by apply mapM_result_length in Hm.
Qed.

(** C8: the BOM parser gives no item for a row whose quantity evaluates
    to a number [<= 0] and counts the row as skipped, so that every item
    it returns has a quantity that is not [<= 0]; the standard checklist
    parser gives an item for every evaluated quantity, zero and negative
    numbers included, and as far as the quantity goes skips only the rows
    whose evaluation gives nothing.  In both parsers every row after the
    header is either parsed or counted as skipped. *)
Theorem C8_quantity_filters :
  (forall raw_data config items diag,
     parse_bom raw_data config = Ok (items, diag) ->
     exists outcomes,
       Forall2 (fun nr o => parse_bom_row config nr.1 nr.2 = Ok o)
               (numbered_rows raw_data (MappingConfig.header_row config))
               outcomes /\
       items = kept outcomes /\
       ParseDiagnostics.parsed_items diag = length items /\
       ParseDiagnostics.skipped_rows diag = count_skipped outcomes /\
       ParseDiagnostics.parsed_items diag + ParseDiagnostics.skipped_rows diag
       = ParseDiagnostics.total_rows diag /\
       Forall (fun item => PrimFloat.leb (BOMItem.quantity item) 0%float = false)
              items) /\
  (forall raw_data config file_label items diag,
     parse_standard raw_data config file_label = Ok (items, diag) ->
     exists outcomes,
       Forall2 (fun nr o => parse_standard_row config nr.1 nr.2 = Ok o)
               (numbered_rows raw_data (MappingConfig.header_row config))
               outcomes /\
       items = kept outcomes /\
       ParseDiagnostics.parsed_items diag = length items /\
       ParseDiagnostics.skipped_rows diag = count_skipped outcomes /\
       ParseDiagnostics.parsed_items diag + ParseDiagnostics.skipped_rows diag
       = ParseDiagnostics.total_rows diag) /\
  (forall config row_number row part_cell qty_cell part_id,
     is_empty_row row = false ->
     row_too_short config row = false ->
     cell_at row (MappingConfig.part_col config) = Ok part_cell ->
     clean_part_number part_cell = Ok part_id ->
     part_id <> [] ->
     cell_at row (MappingConfig.qty_col config) = Ok qty_cell ->
     match safe_eval_expression qty_cell with
     | Ok (Some qty) =>
       parse_standard_row config row_number row
       = (box ← standard_box config row;
          Ok (Some (ListItem.mk part_id qty box row_number))) /\
       (PrimFloat.leb qty 0%float = true ->
        parse_bom_row config row_number row = Ok None) /\
       (PrimFloat.leb qty 0%float = false ->
        forall substitute_cell name_cell,
          optional_cell row (MappingConfig.substitute_col config)
          = Ok substitute_cell ->
          optional_cell row (MappingConfig.name_col config) = Ok name_cell ->
          exists item,
            parse_bom_row config row_number row = Ok (Some item) /\
            BOMItem.main_part_id item = part_id /\
            BOMItem.quantity item = qty /\
            BOMItem.row_index item = row_number)
     | Ok None =>
       parse_standard_row config row_number row = Ok None /\
       parse_bom_row config row_number row = Ok None
     | Raise e =>
       parse_standard_row config row_number row = Raise e /\
       parse_bom_row config row_number row = Raise e
     | Unmodelled =>
       parse_standard_row config row_number row = Unmodelled /\
       parse_bom_row config row_number row = Unmodelled
     end) /\
  (let grid := [[CStr (u "料号"); CStr (u "数量")];
                [CStr (u "1001"); CStr (u "0")];
                [CStr (u "1002"); CStr (u "-1")];
                [CStr (u "1003"); CStr (u "5")];
                [CStr (u "1004"); CStr (u "abc")];
                [CStr (u "1005"); CInt 0]] in
   let config := MappingConfig.mk 0 0 1 None None None false in
   parse_bom grid config
   = Ok ([BOMItem.mk (u "1003") 5 [] [] 4],
         ParseDiagnostics.mk (u "BOM") 1 0 ParseMode.STANDARD 5 1 4) /\
   parse_generic_list grid config (u "L")
   = Ok ([ListItem.mk (u "1001") 0 [] 2; ListItem.mk (u "1002") (-1) [] 3;
          ListItem.mk (u "1003") 5 [] 4; ListItem.mk (u "1005") 0 [] 6],
         ParseDiagnostics.mk (u "L") 1 0 ParseMode.STANDARD 5 4 1)).
Proof.
  split; [|split; [|split]].
  - intros raw_data config items diag. unfold parse_bom. cbv zeta.
    destruct (mapM _ _) as [outcomes| |] eqn:Hm; cbn [mbind result_bind];
      try done.
    intros [<- <-]%Ok_pair_inj.
    destruct (parse_rows_outcomes _ _ _ Hm) as [HF Hlen].
    exists outcomes. split; [exact HF|]. split; [reflexivity|].
    unfold diagnostics.
    cbn [ParseDiagnostics.parsed_items ParseDiagnostics.skipped_rows
         ParseDiagnostics.total_rows].
    split; [reflexivity|]. split; [reflexivity|]. split; [exact Hlen|].
    apply Forall_forall. intros item Hitem%kept_elem.
    destruct (Forall2_elem_r _ _ _ _ HF Hitem) as ([n row] & _ & Hrow).
    destruct (parse_bom_row_quantity _ _ _ _ Hrow) as (qc & _ & _ & Hq).
    exact Hq.
  - intros raw_data config file_label items diag. unfold parse_standard.
    cbv zeta.
    destruct (mapM _ _) as [outcomes| |] eqn:Hm; cbn [mbind result_bind];
      try done.
    intros [<- <-]%Ok_pair_inj.
    destruct (parse_rows_outcomes _ _ _ Hm) as [HF Hlen].
    exists outcomes. split; [exact HF|]. split; [reflexivity|].
    unfold diagnostics.
    cbn [ParseDiagnostics.parsed_items ParseDiagnostics.skipped_rows
         ParseDiagnostics.total_rows].
    split; [reflexivity|]. split; [reflexivity|]. exact Hlen.
  - intros config row_number row part_cell qty_cell part_id.
    apply parse_rows_on_quantity.
  - vm_compute. split; reflexivity.
Qed.

(** ** The stream mode *)

Lemma box_in_force_snoc (seen : list (list cell)) (row : list cell) :
  box_in_force (seen ++ [row])
  = match box_marker row with
    | Some box => box
    | None => box_in_force seen
    end.
Proof.
  unfold box_in_force. rewrite omap_app. cbn [omap list_omap].
  destruct (box_marker row) as [box|].
  - rewrite last_snoc. reflexivity.
  - rewrite app_nil_r. reflexivity.
Qed.

Lemma is_empty_row_nil : is_empty_row [] = true.
Proof. reflexivity. Qed.

(** One iteration of the scan, on a state that holds the box in force. *)
Lemma parse_stream_row_outcome (config : MappingConfig.t) (st : stream_state)
    (seen : list (list cell)) (row_number : Z) (row : list cell) :
  current_box st = box_in_force seen ->
  parse_stream_row config st row_number row
  = (o ← stream_outcome config seen row_number row;
     Ok (mk_stream_state (items st ++ kept [o])
           (skipped st + count_skipped [o])
           (box_in_force (seen ++ [row])))).
Proof.
  intros Hbox. unfold parse_stream_row, stream_outcome.
  rewrite box_in_force_snoc, <- Hbox.
  destruct row as [|c row].
  - cbn [box_marker is_empty_row mbind result_bind]. rewrite is_empty_row_nil.
    cbn [mbind result_bind]. unfold kept, count_skipped.
    cbn [omap list_omap]. rewrite filter_cons_True by done.
    cbn [filter list_filter length]. rewrite app_nil_r.
    f_equal. f_equal; lia.
  - destruct (box_marker (c :: row)) as [box|].
    + cbn [mbind result_bind]. unfold kept, count_skipped.
      cbn [omap list_omap]. rewrite filter_cons_True by done.
      cbn [filter list_filter length]. rewrite app_nil_r.
      f_equal. f_equal; lia.
    + destruct (is_empty_row (c :: row)).
      * cbn [mbind result_bind]. unfold kept, count_skipped.
        cbn [omap list_omap]. rewrite filter_cons_True by done.
        cbn [filter list_filter length]. rewrite app_nil_r.
        f_equal. f_equal; lia.
      * destruct (parse_list_cells _ _ _ _) as [[item|]| |];
          cbn [mbind result_bind]; try reflexivity;
          unfold kept, count_skipped; cbn [omap list_omap id].
        -- rewrite filter_cons_False by done.
           cbn [filter list_filter length]. f_equal. f_equal; lia.
        -- rewrite filter_cons_True by done.
           cbn [filter list_filter length]. rewrite app_nil_r.
           f_equal. f_equal; lia.
Qed.

Lemma kept_cons_app {A} (o : option A) (os : list (option A)) :
  kept (o :: os) = kept [o] ++ kept os.
Proof. destruct o; reflexivity. Qed.

Lemma count_skipped_cons {A} (o : option A) (os : list (option A)) :
  count_skipped (o :: os) = count_skipped [o] + count_skipped os.
Proof.
  unfold count_skipped. destruct o.
  - rewrite !filter_cons_False by done. reflexivity.
  - rewrite !filter_cons_True by done. reflexivity.
Qed.

(** The scan, from a state that holds the box in force: the state it
    ends in holds the records and the count of the outcomes of the rows. *)
Lemma parse_stream_loop_outcomes (config : MappingConfig.t)
    (raw_data : list (list cell)) (indices : list Z)
    (rows : list (Z * list cell)) :
  Forall2 (fun i nr => nr.1 = (i + 1)%Z /\ py_index raw_data i = Ok nr.2)
          indices rows ->
  forall (st : stream_state) (seen : list (list cell)),
    current_box st = box_in_force seen ->
    parse_stream_loop config raw_data st indices
    = (os ← stream_outcomes config seen rows;
       Ok (mk_stream_state (items st ++ kept os)
             (skipped st + count_skipped os)
             (box_in_force (seen ++ rows.*2)))).
Proof.
  intros HF. induction HF as [|i [n row] indices rows [Hn Hrow] HF IH];
    intros st seen Hbox.
  - cbn [parse_stream_loop stream_outcomes mbind result_bind fmap list_fmap].
    unfold kept, count_skipped. cbn [omap list_omap filter list_filter length].
    rewrite !app_nil_r, Nat.add_0_r, <- Hbox. by destruct st.
  - cbn [fst snd] in Hn, Hrow. subst n.
    cbn [parse_stream_loop stream_outcomes]. unfold parse_stream_step.
    rewrite Hrow. cbn [mbind result_bind].
    rewrite (parse_stream_row_outcome config st seen _ row Hbox).
    destruct (stream_outcome config seen (i + 1) row) as [o| |];
      cbn [mbind result_bind]; try reflexivity.
    rewrite (IH (mk_stream_state _ _ _) (seen ++ [row]) eq_refl).
    cbn [items skipped current_box].
    destruct (stream_outcomes config (seen ++ [row]) rows) as [os| |];
      cbn [mbind result_bind]; try reflexivity.
    rewrite (kept_cons_app o os), (count_skipped_cons o os).
    rewrite fmap_cons, <- !app_assoc. cbn [snd app].
    rewrite Nat.add_assoc. reflexivity.
Qed.

(** The outcomes, row by row. *)
Lemma stream_outcomes_lookup (config : MappingConfig.t)
    (rows : list (Z * list cell)) :
  forall (seen : list (list cell)) (os : list (option ListItem.t)),
    stream_outcomes config seen rows = Ok os <->
    Forall2 (fun k o => exists n row,
               rows !! k = Some (n, row) /\
               stream_outcome config (seen ++ take k rows.*2) n row = Ok o)
            (seq 0 (length rows)) os.
Proof.
  induction rows as [|[n row] rows IH]; intros seen os.
  - cbn [stream_outcomes length seq]. split.
    + intros <-%Ok_inj. constructor.
    + intros H. inversion H. reflexivity.
  - cbn [stream_outcomes length seq]. split.
    + destruct (stream_outcome config seen n row) as [o| |] eqn:Ho;
        cbn [mbind result_bind]; try done.
      destruct (stream_outcomes config (seen ++ [row]) rows) as [os'| |] eqn:Hos;
        cbn [mbind result_bind]; try done.
      intros <-%Ok_inj. constructor.
      * exists n, row. split; [reflexivity|].
        cbn [take]. rewrite app_nil_r. exact Ho.
      * apply IH in Hos. rewrite <- fmap_S_seq. apply Forall2_fmap_l.
        eapply Forall2_impl; [exact Hos|].
        intros k o' (n' & row' & Hk & Hout). exists n', row'.
        split; [exact Hk|]. cbn [fmap list_fmap take snd].
        rewrite <- app_assoc in Hout. exact Hout.
    + intros H. inversion H as [|k o ks os' (n' & row' & Hk & Hout) HF]; subst.
      cbn [lookup list_lookup] in Hk. injection Hk as <- <-.
      cbn [take] in Hout. rewrite app_nil_r in Hout. rewrite Hout.
      cbn [mbind result_bind].
      assert (stream_outcomes config (seen ++ [row]) rows = Ok os') as ->.
      { apply IH. rewrite <- fmap_S_seq in HF. apply Forall2_fmap_l in HF.
        eapply Forall2_impl; [exact HF|].
        intros k o' (n' & row' & Hk & Hout'). exists n', row'.
        split; [exact Hk|]. cbn [fmap list_fmap take snd] in Hout'.
        rewrite <- app_assoc. exact Hout'. }
      reflexivity.
Qed.

Lemma py_index_in_range {A} (l : list A) (i : Z) :
  (- Z.of_nat (length l) <= i < Z.of_nat (length l))%Z ->
  exists x, py_index l i = Ok x.
Proof.
  intros Hi. unfold py_index.
  set (j := if (i <? 0)%Z then (Z.of_nat (length l) + i)%Z else i).
  assert (0 <= j < Z.of_nat (length l))%Z as Hj.
  { unfold j. destruct (Z.ltb_spec i 0); lia. }
  destruct (Z.ltb_spec j 0); [lia|].
  destruct (l !! Z.to_nat j) as [x|] eqn:Hx; [by exists x|].
  apply lookup_ge_None in Hx. lia.
Qed.

(** From a start that is not below [-len(raw_data)] every index of the
    scan is one of the grid. *)
Lemma stream_rows_scanned (raw_data : list (list cell)) (start : Z) :
  (- Z.of_nat (length raw_data) <= start)%Z ->
  scanned_rows raw_data start (stream_rows raw_data start).
Proof.
  intros Hstart. unfold scanned_rows, stream_rows.
  assert (Forall (fun i => - Z.of_nat (length raw_data) <= i
                           < Z.of_nat (length raw_data))%Z
                 (py_range start (Z.of_nat (length raw_data)))) as Hall.
  { apply Forall_forall. intros i Hi%elem_of_seqZ. lia. }
  induction Hall as [|i l Hi Hall IH]; [constructor|].
  cbn [omap list_omap]. destruct (py_index_in_range raw_data i Hi) as [row Hrow].
  rewrite Hrow. constructor; [done|exact IH].
Qed.

Lemma parse_stream_below (raw_data : list (list cell))
    (config : MappingConfig.t) (file_label : str) :
  (MappingConfig.header_row config + 1 < - Z.of_nat (length raw_data))%Z ->
  parse_stream raw_data config file_label = Raise IndexError.
Proof.
  intros Hlow. unfold parse_stream, py_range. cbv zeta.
  rewrite seqZ_cons by lia. cbn [parse_stream_loop]. unfold parse_stream_step.
  assert (py_index raw_data (MappingConfig.header_row config + 1)
          = Raise IndexError) as ->; [|reflexivity].
  unfold py_index.
  destruct (Z.ltb_spec (MappingConfig.header_row config + 1) 0); [|lia].
  destruct (Z.ltb_spec (Z.of_nat (length raw_data)
                        + (MappingConfig.header_row config + 1)) 0); [|lia].
  reflexivity.
Qed.

(** The stream mode returns the records of the outcomes of the rows it
    scans, and counts the other rows as skipped. *)
Lemma parse_stream_outcomes (raw_data : list (list cell))
    (config : MappingConfig.t) (file_label : str) :
  (- Z.of_nat (length raw_data) <= MappingConfig.header_row config + 1)%Z ->
  parse_stream raw_data config file_label
  = (os ← stream_outcomes config []
            (stream_rows raw_data (MappingConfig.header_row config + 1));
     Ok (kept os,
         diagnostics file_label ParseMode.STREAM
           (MappingConfig.header_row config) (length raw_data)
           (kept os) (count_skipped os))).
Proof.
  intros Hstart. unfold parse_stream. cbv zeta.
  rewrite (parse_stream_loop_outcomes config raw_data _ _
             (stream_rows_scanned raw_data _ Hstart)
             (mk_stream_state [] 0 []) [] eq_refl).
  destruct (stream_outcomes config [] _) as [os| |]; reflexivity.
Qed.

Lemma stream_outcome_marker (config : MappingConfig.t)
    (seen : list (list cell)) (row_number : Z) (row : list cell) (box : str) :
  box_marker row = Some box ->
  stream_outcome config seen row_number row = Ok None.
Proof. unfold stream_outcome. intros ->. reflexivity. Qed.

Lemma parse_list_cells_item (config : MappingConfig.t) (row_number : Z)
    (row : list cell) (box : str) (item : ListItem.t) :
  parse_list_cells config row_number row (Ok box) = Ok (Some item) ->
  ListItem.box_number item = box /\ ListItem.row_index item = row_number /\
  exists part_cell qty_cell,
    row_too_short config row = false /\
    cell_at row (MappingConfig.part_col config) = Ok part_cell /\
    clean_part_number part_cell = Ok (ListItem.part_id item) /\
    ListItem.part_id item <> [] /\
    cell_at row (MappingConfig.qty_col config) = Ok qty_cell /\
    safe_eval_expression qty_cell = Ok (Some (ListItem.quantity item)).
Proof.
  unfold parse_list_cells.
  destruct (row_too_short config row); [done|].
  destruct (cell_at row (MappingConfig.part_col config)) as [pc| |];
    cbn [mbind result_bind]; try done.
  destruct (clean_part_number pc) as [pid| |] eqn:Hpid;
    cbn [mbind result_bind]; try done.
  destruct (str_eqb pid []) eqn:Hne; [done|].
  destruct (cell_at row (MappingConfig.qty_col config)) as [qc| |];
    cbn [mbind result_bind]; try done.
  destruct (safe_eval_expression qc) as [[q|]| |] eqn:Hq;
    cbn [mbind result_bind]; try done.
  intros H%Ok_inj. injection H as <-.
  cbn [ListItem.box_number ListItem.row_index ListItem.part_id
       ListItem.quantity].
  split; [reflexivity|]. split; [reflexivity|].
  exists pc, qc. repeat split; try done.
  intros ->. unfold str_eqb in Hne. by rewrite bool_decide_eq_true_2 in Hne.
Qed.

(** A record of the stream mode comes from a row that is not a marker
    row, and carries the box in force. *)
Lemma stream_outcome_item (config : MappingConfig.t)
    (seen : list (list cell)) (row_number : Z) (row : list cell)
    (item : ListItem.t) :
  stream_outcome config seen row_number row = Ok (Some item) ->
  box_marker row = None /\ is_empty_row row = false /\
  ListItem.box_number item = box_in_force seen /\
  ListItem.row_index item = row_number.
Proof.
  unfold stream_outcome. destruct (box_marker row); [done|].
  destruct (is_empty_row row); [done|].
  intros (Hb & Hn & _)%parse_list_cells_item. done.
Qed.

(** C6: in the stream mode the scan starts with no box in force, a marker
    row puts its label in force and gives no record, and every record
    carries the box in force at its row, the empty string before the first
    marker.  The parser returns the records of the rows it scans in their
    order and counts the other rows as skipped.  On the grid of the claim,
    the four rows scanned, the two records of part 1001 carry the labels
    1号箱 and 2号箱, and the two labels are merged into the one display
    string. *)
Theorem C6_stream_mode :
  (forall raw_data config file_label,
     let start := (MappingConfig.header_row config + 1)%Z in
     (start < - Z.of_nat (length raw_data) ->
      parse_stream raw_data config file_label = Raise IndexError)%Z /\
     (- Z.of_nat (length raw_data) <= start ->
      scanned_rows raw_data start (stream_rows raw_data start) /\
      parse_stream raw_data config file_label
      = (os ← stream_outcomes config [] (stream_rows raw_data start);
         Ok (kept os,
             diagnostics file_label ParseMode.STREAM
               (MappingConfig.header_row config) (length raw_data)
               (kept os) (count_skipped os))))%Z) /\
  (forall config rows seen os,
     stream_outcomes config seen rows = Ok os <->
     Forall2 (fun k o => exists n row,
                rows !! k = Some (n, row) /\
                stream_outcome config (seen ++ take k rows.*2) n row = Ok o)
             (seq 0 (length rows)) os) /\
  box_in_force [] = [] /\
  (forall seen row,
     box_in_force (seen ++ [row])
     = match box_marker row with
       | Some box => box
       | None => box_in_force seen
       end) /\
  (forall config seen row_number row box,
     box_marker row = Some box ->
     stream_outcome config seen row_number row = Ok None) /\
  (forall config seen row_number row item,
     stream_outcome config seen row_number row = Ok (Some item) ->
     box_marker row = None /\ is_empty_row row = false /\
     ListItem.box_number item = box_in_force seen /\
     ListItem.row_index item = row_number) /\
  (let grid := [[CStr (u "第1箱")]; [CStr (u "1001"); CInt 5];
                [CStr (u "第2箱")]; [CStr (u "1001"); CInt 3]] in
   let records header :=
     fst <$> parse_generic_list (header ++ grid)
               (MappingConfig.mk (Z.of_nat (length header) - 1) 0 1
                  None None None true) (u "L") in
   records []
   = Ok [ListItem.mk (u "1001") 5 (u "1号箱") 2;
         ListItem.mk (u "1001") 3 (u "2号箱") 4] /\
   records [[CStr (u "料号"); CStr (u "数量")]]
   = Ok [ListItem.mk (u "1001") 5 (u "1号箱") 3;
         ListItem.mk (u "1001") 3 (u "2号箱") 5]) /\
  (forall it, iterates it ->
     merge_box_numbers it [u "1号箱"; u "2号箱"] = u "1号箱, 2号箱").
Proof.
  split; [|split; [|split; [|split; [|split; [|split; [|split]]]]]].
  - intros raw_data config file_label start. split.
    + apply parse_stream_below.
    + intros Hstart. split; [by apply stream_rows_scanned|].
      by apply parse_stream_outcomes.
  - intros config rows seen os. apply stream_outcomes_lookup.
  - reflexivity.
  - apply box_in_force_snoc.
  - apply stream_outcome_marker.
  - apply stream_outcome_item.
  - vm_compute. split; reflexivity.
  - intros it Hit.
    rewrite (merge_box_numbers_order it elements) by
      (try exact Hit; intros s; reflexivity).
    vm_compute. reflexivity.
Qed.

(** The first row of a grid is its header when [header_row] is 0: a
    marker in it is not read, and the records before the next marker
    carry no box. *)
Lemma stream_header_row_example :
  fst <$> parse_generic_list
            [[CStr (u "第1箱")]; [CStr (u "1001"); CInt 5];
             [CStr (u "第2箱")]; [CStr (u "1001"); CInt 3]]
            (MappingConfig.mk 0 0 1 None None None true) (u "L")
  = Ok [ListItem.mk (u "1001") 5 [] 2;
        ListItem.mk (u "1001") 3 (u "2号箱") 4].
Proof. vm_compute. reflexivity. Qed.

(** ** The header locator *)

Lemma score_loop_size (lower : str -> str) (text : str) (keywords : list str)
    (matched : gset str) :
  score_loop lower text keywords matched
  = size (list_to_set
            (filter (fun kw => contains kw text = true) (map lower keywords))
          ∖ matched : gset str).
Proof.
  revert matched. induction keywords as [|kw rest IH]; intros matched.
  - cbn [score_loop map filter list_filter list_to_set].
    replace (∅ ∖ matched) with (∅ : gset str) by set_solver.
    symmetry. apply size_empty.
  - cbn [score_loop map].
    destruct (contains (lower kw) text) eqn:Hc.
    + rewrite filter_cons_True by done. cbn [list_to_set].
      destruct (decide (lower kw ∈ matched)) as [Hin|Hin].
      * rewrite bool_decide_eq_false_2 by (intros H; by apply H).
        cbn [andb]. rewrite IH. f_equal. set_solver.
      * rewrite bool_decide_eq_true_2 by done. cbn [andb]. rewrite IH.
        set (rest_set := list_to_set _ : gset str).
        replace (({[lower kw]} ∪ rest_set) ∖ matched)
          with ({[lower kw]} ∪ rest_set ∖ ({[lower kw]} ∪ matched)).
        -- rewrite (size_union (C := gset str) {[lower kw]}) by set_solver.
           rewrite (size_singleton (C := gset str)). reflexivity.
        -- apply set_eq. intros x. rewrite !elem_of_union, !elem_of_difference,
             !elem_of_union, !elem_of_singleton.
           destruct (decide (x = lower kw)) as [->|]; naive_solver.
    + rewrite filter_cons_False by (by rewrite Hc). cbn [andb]. apply IH.
Qed.

(** The score of a row: the number of distinct keywords it matches. *)
Lemma calculate_header_score_size (lower : str -> str) (row : list cell)
    (keywords : list str) :
  row <> [] ->
  calculate_header_score lower row keywords
  = size (matched_keywords lower row keywords).
Proof.
  intros Hrow. unfold calculate_header_score, matched_keywords.
  destruct row; [done|]. rewrite score_loop_size. f_equal. set_solver.
Qed.

(** The scan keeps the first row that beats every row before it and the
    score it started from. *)
Lemma header_scan_spec (lower : str -> str) (keywords : list str)
    (rows : list (nat * list cell)) :
  forall (b : option nat) (s : nat),
    let score row := calculate_header_score lower row keywords in
    let r := header_scan lower rows keywords (b, s) in
    s <= snd r /\
    (forall k idx row, rows !! k = Some (idx, row) ->
                       2 <= non_empty_cells row -> score row <= snd r) /\
    (r = (b, s) \/
     exists k idx row,
       rows !! k = Some (idx, row) /\ 2 <= non_empty_cells row /\
       r = (Some idx, score row) /\ s < score row /\
       forall j idx' row', j < k -> rows !! j = Some (idx', row') ->
                           2 <= non_empty_cells row' ->
                           score row' < score row).
Proof.
  induction rows as [|[idx row] rest IH]; intros b s score r; subst score; cbv beta.
  - subst r. cbn [header_scan snd]. split; [lia|]. split; [|by left].
    intros k idx row Hk. by rewrite lookup_nil in Hk.
  - assert (Hskip : non_empty_cells row < 2 ->
              r = header_scan lower rest keywords (b, s)).
    { intros Hlt. subst r. cbn [header_scan]. destruct row as [|c row]; [done|].
      destruct (Nat.ltb_spec (non_empty_cells (c :: row)) 2); [done|lia]. }
    destruct (Nat.lt_ge_cases (non_empty_cells row) 2) as [Hlt|Hge].
    + rewrite (Hskip Hlt). destruct (IH b s) as (H1 & H2 & H3).
      split; [exact H1|]. split.
      * intros [|k] idx' row' Hk Hne.
        -- cbn in Hk. injection Hk as <- <-. lia.
        -- exact (H2 k idx' row' Hk Hne).
      * destruct H3 as [H3|(k & idx' & row' & Hk & Hne & Hr & Hs & Hbefore)];
          [by left|right].
        exists (S k), idx', row'. split; [exact Hk|]. split; [exact Hne|].
        split; [exact Hr|]. split; [exact Hs|].
        intros [|j] idx'' row'' Hj Hlk Hne'.
        -- cbn in Hlk. injection Hlk as <- <-. lia.
        -- apply (Hbefore j idx'' row''); [lia|exact Hlk|exact Hne'].
    + assert (Hrow : r = if (s <? calculate_header_score lower row keywords)%nat
                         then header_scan lower rest keywords (Some idx, calculate_header_score lower row keywords)
                         else header_scan lower rest keywords (b, s)).
      { subst r. cbn [header_scan]. destruct row as [|c row]; [cbn in Hge; lia|].
        destruct (Nat.ltb_spec (non_empty_cells (c :: row)) 2); [lia|].
        reflexivity. }
      rewrite Hrow. clear Hrow Hskip. cbn [snd].
      destruct (Nat.ltb_spec s (calculate_header_score lower row keywords)) as [Hbeat|Hkeep].
      * destruct (IH (Some idx) (calculate_header_score lower row keywords)) as (H1 & H2 & H3).
        split; [lia|]. split.
        -- intros [|k] idx' row' Hk Hne.
           ++ cbn in Hk. injection Hk as <- <-. exact H1.
           ++ exact (H2 k idx' row' Hk Hne).
        -- right.
           destruct H3 as [H3|(k & idx' & row' & Hk & Hne & Hr & Hs & Hbefore)].
           ++ exists 0, idx, row. split; [reflexivity|]. split; [exact Hge|].
              split; [exact H3|]. split; [exact Hbeat|]. intros j ? ? Hj. lia.
           ++ exists (S k), idx', row'. split; [exact Hk|]. split; [exact Hne|].
              split; [exact Hr|]. split; [lia|].
              intros [|j] idx'' row'' Hj Hlk Hne'.
              ** cbn in Hlk. injection Hlk as <- <-. exact Hs.
              ** apply (Hbefore j idx'' row''); [lia|exact Hlk|exact Hne'].
      * destruct (IH b s) as (H1 & H2 & H3).
        split; [exact H1|]. split.
        -- intros [|k] idx' row' Hk Hne.
           ++ cbn in Hk. injection Hk as <- <-. lia.
           ++ exact (H2 k idx' row' Hk Hne).
        -- destruct H3 as [H3|(k & idx' & row' & Hk & Hne & Hr & Hs & Hbefore)];
             [by left|right].
           exists (S k), idx', row'. split; [exact Hk|]. split; [exact Hne|].
           split; [exact Hr|]. split; [exact Hs|].
           intros [|j] idx'' row'' Hj Hlk Hne'.
           ++ cbn in Hlk. injection Hlk as <- <-. lia.
           ++ apply (Hbefore j idx'' row''); [lia|exact Hlk|exact Hne'].
Qed.

Lemma header_candidates_take (data : list (list cell)) (max_rows : Z) :
  take (Z.to_nat (Z.min (Z.of_nat (length data)) max_rows)) data
  = header_candidates data max_rows.
Proof.
  unfold header_candidates.
  destruct (Z.le_gt_cases max_rows (Z.of_nat (length data))) as [H|H].
  - rewrite Z.min_r by lia. reflexivity.
  - rewrite Z.min_l by lia. rewrite Nat2Z.id.
    rewrite firstn_all. symmetry. apply take_ge. lia.
Qed.

(** [smart_find_header_row] on a grid and a keyword list that are not
    empty. *)
Lemma smart_find_header_row_scan (lower : str -> str)
    (data : list (list cell)) (keywords : list str) (max_rows min_score : Z) :
  smart_find_header_row lower data keywords max_rows min_score
  = match data, keywords with
    | [], _ | _, [] => (None, 0%Z)
    | _, _ =>
      let best :=
        header_scan lower
          (imap (fun i row => (i, row)) (header_candidates data max_rows))
          keywords (None, 0) in
      if (min_score <=? Z.of_nat (snd best))%Z
      then (fst best, Z.of_nat (snd best))
      else (None, 0%Z)
    end.
Proof.
  unfold smart_find_header_row. rewrite header_candidates_take. reflexivity.
Qed.

Lemma calculate_header_score_no_keywords (lower : str -> str)
    (row : list cell) :
  calculate_header_score lower row [] = 0.
Proof. by destruct row. Qed.

Lemma header_candidates_nil (max_rows : Z) : header_candidates [] max_rows = [].
Proof. unfold header_candidates. by rewrite take_nil. Qed.

(** The row the locator returns. *)
Lemma smart_find_header_row_found (lower : str -> str)
    (data : list (list cell)) (keywords : list str) (max_rows min_score : Z)
    (i : nat) (sc : Z) :
  smart_find_header_row lower data keywords max_rows min_score = (Some i, sc)
  <->
  exists row,
    header_candidates data max_rows !! i = Some row /\
    2 <= non_empty_cells row /\
    sc = Z.of_nat (calculate_header_score lower row keywords) /\
    (1 <= sc)%Z /\ (min_score <= sc)%Z /\
    forall j row',
      header_candidates data max_rows !! j = Some row' ->
      2 <= non_empty_cells row' ->
      calculate_header_score lower row' keywords
      <= calculate_header_score lower row keywords /\
      (j < i -> calculate_header_score lower row' keywords
                < calculate_header_score lower row keywords).
Proof.
  rewrite smart_find_header_row_scan.
  pose proof (header_scan_spec lower keywords
                (imap (fun i row => (i, row)) (header_candidates data max_rows))
                None 0) as Hspec.
  cbv zeta in Hspec. destruct Hspec as (_ & Hmax & Hbest).
  assert (Hrow : forall k idx row,
            imap (fun i row => (i, row)) (header_candidates data max_rows) !! k
            = Some (idx, row) <->
            idx = k /\ header_candidates data max_rows !! k = Some row).
  { intros k idx row. rewrite list_lookup_imap.
    destruct (header_candidates data max_rows !! k) as [row'|]; cbn; [|naive_solver].
    split; [intros [= <- <-]; done|intros [-> [= ->]]; done]. }
  split.
  - intros Hres.
    assert (exists best,
              best = header_scan lower
                       (imap (fun i row => (i, row))
                             (header_candidates data max_rows))
                       keywords (None, 0) /\
              (min_score <= Z.of_nat (snd best))%Z /\
              fst best = Some i /\ sc = Z.of_nat (snd best))
      as (best & Hb & Hmin & Hfst & Hsc).
    { destruct data as [|d data]; [done|]. destruct keywords as [|kw kws]; [done|].
      cbv zeta in Hres.
      destruct (Z.leb_spec min_score
                  (Z.of_nat (snd (header_scan lower
                     (imap (fun i row => (i, row))
                           (header_candidates (d :: data) max_rows))
                     (kw :: kws) (None, 0))))); [|done].
      injection Hres as H1 H2. eexists. split; [reflexivity|]. done. }
    rewrite <- Hb in Hmax, Hbest.
    destruct Hbest as [->|(k & idx & row & Hk & Hne & -> & Hpos & Hbefore)];
      [done|].
    cbn [fst snd] in *. injection Hfst as ->.
    apply Hrow in Hk as [Hik Hk]. subst k.
    exists row. split; [exact Hk|]. split; [exact Hne|]. split; [exact Hsc|].
    split; [lia|]. split; [lia|].
    intros j row' Hj Hne'. split.
    + apply (Hmax j j row'); [by apply Hrow|exact Hne'].
    + intros Hlt. apply (Hbefore j j row'); [exact Hlt|by apply Hrow|exact Hne'].
  - intros (row & Hi & Hne & -> & Hpos & Hmin & Hall).
    destruct data as [|d data]; [by rewrite header_candidates_nil in Hi|].
    destruct keywords as [|kw kws];
      [rewrite calculate_header_score_no_keywords in Hpos; lia|].
    cbv zeta.
    set (best := header_scan _ _ _ _) in *.
    assert (best = (Some i, calculate_header_score lower row (kw :: kws)))
      as ->.
    { destruct Hbest as [Hb|(k & idx & rowk & Hk & Hnek & Hb & Hposk & Hbefore)].
      - exfalso. pose proof (Hmax i i row (proj2 (Hrow _ _ _) (conj eq_refl Hi)) Hne)
          as Hle. rewrite Hb in Hle. cbn [snd] in Hle. lia.
      - apply Hrow in Hk as [-> Hk]. rewrite Hb.
        pose proof (Hmax i i row (proj2 (Hrow _ _ _) (conj eq_refl Hi)) Hne)
          as Hle. rewrite Hb in Hle. cbn [snd] in Hle.
        destruct (Hall k rowk Hk Hnek) as [Hle' Hlt'].
        destruct (Nat.lt_trichotomy k i) as [Hki|[->|Hik]].
        + specialize (Hlt' Hki). lia.
        + rewrite Hi in Hk. by injection Hk as ->.
        + pose proof (Hbefore i i row Hik
                        (proj2 (Hrow _ _ _) (conj eq_refl Hi)) Hne). lia. }
    cbn [fst snd].
    destruct (Z.leb_spec min_score
                (Z.of_nat (calculate_header_score lower row (kw :: kws))));
      [reflexivity|lia].
Qed.

(** When no row is returned the locator signals it with [(None, 0)]. *)
Lemma smart_find_header_row_not_found (lower : str -> str)
    (data : list (list cell)) (keywords : list str) (max_rows min_score : Z) :
  (forall i sc,
     smart_find_header_row lower data keywords max_rows min_score
     <> (Some i, sc)) ->
  smart_find_header_row lower data keywords max_rows min_score = (None, 0%Z).
Proof.
  intros Hnone. rewrite smart_find_header_row_scan in *.
  destruct data as [|d data]; [reflexivity|].
  destruct keywords as [|kw kws]; [reflexivity|].
  pose proof (header_scan_spec lower (kw :: kws)
                (imap (fun i row => (i, row))
                      (header_candidates (d :: data) max_rows)) None 0)
    as Hspec.
  cbv zeta in *. destruct Hspec as (_ & _ & Hbest).
  set (best := header_scan _ _ _ _) in *.
  destruct Hbest as [Hb|(k & idx & rowk & _ & _ & Hb & _)];
    rewrite Hb in *; cbn [fst snd] in *.
  - destruct (Z.leb_spec min_score (Z.of_nat 0)); reflexivity.
  - destruct (Z.leb_spec min_score
                (Z.of_nat (calculate_header_score lower rowk (kw :: kws))));
      [|reflexivity].
    exfalso. by eapply Hnone.
Qed.

(** C7, as amended: the locator scans the first [max_rows] rows of the
    grid, gives no score to a row with fewer than two non-empty cells,
    scores every other row by the number of distinct keywords, compared
    in lower case, that its text holds, and returns the row [i] with the
    score [sc] exactly when the row is scanned and scored, [sc] is its
    score, the score is at least 1 and at least [min_score], no scored
    row has a higher score and every scored row before it has a lower one
    (the earlier row wins a tie).  When there is no such row it signals
    it with [(None, 0)]. *)
Theorem C7_header_locator (lower : str -> str) (data : list (list cell))
    (keywords : list str) (max_rows min_score : Z) :
  header_candidates data max_rows = take (Z.to_nat max_rows) data /\
  (forall row, row <> [] ->
     calculate_header_score lower row keywords
     = size (matched_keywords lower row keywords)) /\
  (forall i sc,
     smart_find_header_row lower data keywords max_rows min_score
     = (Some i, sc) <->
     exists row,
       header_candidates data max_rows !! i = Some row /\
       2 <= non_empty_cells row /\
       sc = Z.of_nat (calculate_header_score lower row keywords) /\
       (1 <= sc)%Z /\ (min_score <= sc)%Z /\
       forall j row',
         header_candidates data max_rows !! j = Some row' ->
         2 <= non_empty_cells row' ->
         calculate_header_score lower row' keywords
         <= calculate_header_score lower row keywords /\
         (j < i -> calculate_header_score lower row' keywords
                   < calculate_header_score lower row keywords)) /\
  ((forall i sc,
      smart_find_header_row lower data keywords max_rows min_score
      <> (Some i, sc)) ->
   smart_find_header_row lower data keywords max_rows min_score
   = (None, 0%Z)).
Proof.
  split; [reflexivity|]. split; [|split].
  - intros row Hrow. by apply calculate_header_score_size.
  - apply smart_find_header_row_found.
  - apply smart_find_header_row_not_found.
Qed.

(** C7, as stated, fails for a threshold below 1: the only row is
    scored, its score 0 is the highest and is at least [min_score = 0],
    and the locator signals that it found nothing. *)
Lemma C7_zero_threshold_counterexample :
  let row := [CStr (u "a"); CStr (u "b")] in
  header_candidates [row] HEADER_SCAN_ROWS !! 0 = Some row /\
  2 <= non_empty_cells row /\
  calculate_header_score ascii_lower row [u "x"] = 0 /\
  (0 <= Z.of_nat (calculate_header_score ascii_lower row [u "x"]))%Z /\
  smart_find_header_row ascii_lower [row] [u "x"] HEADER_SCAN_ROWS 0
  = (None, 0%Z).
Proof. vm_compute. repeat split; try reflexivity; intros H; discriminate H. Qed.

(** The locator on a grid with a title row: the title has one cell and
    is not scored, keywords are matched whatever their case and counted
    once, the earlier of two rows with the same score is returned, and a
    row beyond [max_rows] is not scanned. *)
Lemma header_locator_examples :
  let data := [[CStr (u "BOM"); CNone];
               [CStr (u "Part No"); CStr (u "QTY"); CStr (u "备注")];
               [CStr (u "料号"); CStr (u "数量"); CStr (u "名称")];
               [CStr (u "part no"); CStr (u "qty"); CStr (u "料号")]] in
  let keywords := [u "料号"; u "数量"; u "Part No"; u "PART NO"; u "Qty"] in
  map (fun row => calculate_header_score ascii_lower row keywords) data
  = [0; 2; 2; 3] /\
  smart_find_header_row ascii_lower data keywords HEADER_SCAN_ROWS
    MIN_HEADER_SCORE = (Some 3, 3%Z) /\
  smart_find_header_row ascii_lower data keywords 3 MIN_HEADER_SCORE
  = (Some 1, 2%Z) /\
  smart_find_header_row ascii_lower data keywords 3 3 = (None, 0%Z) /\
  smart_find_header_row ascii_lower data keywords 1 1 = (None, 0%Z) /\
  smart_find_header_row ascii_lower data [] 3 0 = (None, 0%Z).
Proof. vm_compute. repeat split; reflexivity. Qed.

(** ** The quantity evaluator *)






